(** * A DQN agent for Atari: replay buffer, epsilon schedule, learning loop

    Shallow embedding of [agent.py]: the classes [EpsilonDecaySchedule],
    [ReplayBuffer] and [DQNAgent].  Python integers are [Z], NumPy arrays are
    lists indexed through [getitem]/[setitem] (bounds checked, as NumPy
    does), Python floats are IEEE binary64 and torch tensors of the default
    dtype are IEEE binary32, both through the parametric operations of
    [SpecFloat].  A Python exception is the [Raise] case of [result]. *)

From Stdlib Require Import ZArith Lia Bool List.
From Stdlib Require Import Floats.SpecFloat Floats.PrimFloat Floats.FloatOps
  Floats.FloatAxioms.
From Stdlib Require Uint63.
From stdpp Require Import base list.

Local Open Scope Z_scope.

(** ** Exceptions *)

Inductive exn : Set :=
| ValueError
| IndexError
| ZeroDivisionError
| RuntimeError.

Inductive result (A : Type) : Type :=
| OK (a : A)
| Raise (e : exn).
Arguments OK {A} a.
Arguments Raise {A} e.

Definition rbind {A B} (m : result A) (k : A -> result B) : result B :=
  match m with
  | OK a => k a
  | Raise e => Raise e
  end.

#[global] Instance result_bind : MBind result := fun _ _ k m => rbind m k.
#[global] Instance result_ret : MRet result := fun _ a => OK a.

Fixpoint mapM {A B} (f : A -> result B) (l : list A) : result (list B) :=
  match l with
  | [] => OK []
  | x :: l' => y ← f x; ys ← mapM f l'; OK (y :: ys)
  end.

(** ** Floating point numbers *)

(** Python's [float] and NumPy's [float64]. *)
Module F64.
Definition t := spec_float.
Definition prec := 53.
Definition emax := 1024.
Definition add : t -> t -> t := SFadd prec emax.
Definition sub : t -> t -> t := SFsub prec emax.
Definition mul : t -> t -> t := SFmul prec emax.
Definition div : t -> t -> t := SFdiv prec emax.
Definition of_Z (z : Z) : t := binary_normalize prec emax z 0 false.
Definition eqb : t -> t -> bool := SFeqb.
Definition ltb : t -> t -> bool := SFltb.
Definition leb : t -> t -> bool := SFleb.
Definition zero : t := S754_zero false.
Definition nan : t := S754_nan.
(** The literals [1.0] and [0.1]: the binary64 numbers nearest to them. *)
Definition one : t := S754_finite false 4503599627370496 (-52).
Definition tenth : t := S754_finite false 7205759403792794 (-56).
End F64.

(** torch's [float32]. *)
Module F32.
Definition t := spec_float.
Definition prec := 24.
Definition emax := 128.
Definition add : t -> t -> t := SFadd prec emax.
Definition sub : t -> t -> t := SFsub prec emax.
Definition mul : t -> t -> t := SFmul prec emax.
Definition of_Z (z : Z) : t := binary_normalize prec emax z 0 false.
Definition eqb : t -> t -> bool := SFeqb.
Definition ltb : t -> t -> bool := SFltb.
Definition leb : t -> t -> bool := SFleb.
Definition zero : t := S754_zero false.
Definition one : t := S754_finite false 8388608 (-23).
Definition is_nan (x : t) : bool :=
  match x with S754_nan => true | _ => false end.
(** Neither an infinity nor a NaN. *)
Definition is_finite (x : t) : bool :=
  match x with S754_zero _ | S754_finite _ _ _ => true | _ => false end.
(** Conversion of a Python float to the tensor's dtype (round to nearest,
    ties to even). *)
Definition of_f64 (x : F64.t) : t :=
  match x with
  | S754_finite s m e => binary_round prec emax s m e
  | _ => x
  end.
(** [tensor.float()] on a boolean tensor. *)
Definition of_bool (b : bool) : t := if b then one else zero.
End F32.

(** ** One-dimensional NumPy arrays *)

(** [a[i]] for a Python integer [i]: a negative index counts from the end,
    anything outside the array raises [IndexError]. *)
Definition norm_index (len i : Z) : result nat :=
  let j := if i <? 0 then i + len else i in
  if (0 <=? j) && (j <? len) then OK (Z.to_nat j) else Raise IndexError.

Definition getitem {A} (a : list A) (i : Z) : result A :=
  j ← norm_index (Z.of_nat (length a)) i;
  match a !! j with
  | Some x => OK x
  | None => Raise IndexError
  end.

(** [a[i] = x], in place. *)
Definition setitem {A} (a : list A) (i : Z) (x : A) : result (list A) :=
  j ← norm_index (Z.of_nat (length a)) i;
  OK (<[j := x]> a).

(** [a[idxs]] for an integer array [idxs]: a new array, one element per
    index. *)
Definition getitems {A} (a : list A) (idxs : list Z) : result (list A) :=
  mapM (getitem a) idxs.

(** [np.arange(0, num)] as Python integers. *)
Definition arange (num : Z) : list Z :=
  map Z.of_nat (seq 0 (Z.to_nat num)).

(** [np.linspace(start, stop, num)] for scalar float arguments, with the
    default [endpoint=True].  The elements are [k * step + start], the last
    one is then overwritten with [stop]. *)
Definition linspace (start stop : F64.t) (num : Z) : result (list F64.t) :=
  if num <? 0 then Raise ValueError
  else
    let div := num - 1 in
    let delta := F64.sub stop start in
    let y := map F64.of_Z (arange num) in
    let y :=
      if 0 <? div then
        let step := F64.div delta (F64.of_Z div) in
        if F64.eqb step F64.zero
        then map (fun v => F64.mul (F64.div v (F64.of_Z div)) delta) y
        else map (fun v => F64.mul v step) y
      else map (fun v => F64.mul v delta) y in
    let y := map (fun v => F64.add v start) y in
    if 1 <? num then setitem y (-1) stop else OK y.

(** ** The global NumPy random generator *)

(** The generator is the stream of its raw outputs and a cursor into it; the
    distribution of the stream is not part of the model. *)
Record RandomState := {
  raw : nat -> Z;
  cursor : nat
}.

Definition advance (n : nat) (g : RandomState) : RandomState :=
  {| raw := raw g; cursor := (cursor g + n)%nat |}.

(** [np.random.randint(low, high, n)]: [n] integers of [[low, high)].  A
    request for no element is answered before the bounds are looked at.
    That one element of the stream is used per integer is a convention of
    the model: how many raw outputs NumPy's generator consumes for a draw
    is not modelled. *)
Definition randint (low high n : Z) (g : RandomState)
  : result (list Z * RandomState) :=
  if n <? 0 then Raise ValueError
  else if n =? 0 then OK ([], g)
  else if high <=? low then Raise ValueError
  else
    let k := Z.to_nat n in
    OK (map (fun i => low + raw g (cursor g + i)%nat `mod` (high - low)) (seq 0 k),
        advance k g).

(** [np.random.random()]: a multiple of [2^-53] in [[0, 1)]. *)
Definition random (g : RandomState) : F64.t * RandomState :=
  (binary_normalize F64.prec F64.emax (raw g (cursor g) `mod` 2 ^ 53) (-53) false,
   advance 1 g).

(** ** class EpsilonDecaySchedule *)

Module EpsilonDecaySchedule.

Record t := {
  step : Z;
  schedule : list F64.t
}.

Definition init (start end_ : F64.t) (steps : Z) : result t :=
  sched ← linspace start end_ steps;
  OK {| step := 0; schedule := sched |}.

Definition next_epsilon (self : t) : result (F64.t * t) :=
  let self := {| step := step self + 1; schedule := schedule self |} in
  eps ← getitem (schedule self)
          (Z.min (step self) (Z.of_nat (length (schedule self)) - 1));
  OK (eps, self).

(** The object after [n] calls of [next_epsilon]. *)
Fixpoint after_calls (n : nat) (self : t) : result t :=
  match n with
  | O => OK self
  | S n' => '(_, self') ← next_epsilon self; after_calls n' self'
  end.

(** What the call that follows [k] earlier calls returns: [call_after 0]
    is the first call on the object, [call_after k] the [(k+1)]-th. *)
Definition call_after (k : nat) (self : t) : result F64.t :=
  self' ← after_calls k self;
  '(eps, _) ← next_epsilon self';
  OK eps.

End EpsilonDecaySchedule.

(** ** Transitions and batches *)

(** One step [(observation, action, reward, next_observation, done)].
    [Frame] is the type of a stacked observation (4 x 84 x 84 bytes): the
    pixels are never looked at by the agent's own code, so a frame is kept
    abstract. *)
Record Transition (Frame : Type) := {
  t_obs : Frame;
  t_act : Z;
  t_rew : Z;
  t_next_obs : Frame;
  t_done : bool
}.
Arguments t_obs {Frame} _.
Arguments t_act {Frame} _.
Arguments t_rew {Frame} _.
Arguments t_next_obs {Frame} _.
Arguments t_done {Frame} _.

(** What [sample] returns: five arrays of equal length. *)
Record Batch (Frame : Type) := {
  b_obs : list Frame;
  b_act : list Z;
  b_rew : list Z;
  b_next_obs : list Frame;
  b_done : list bool
}.
Arguments b_obs {Frame} _.
Arguments b_act {Frame} _.
Arguments b_rew {Frame} _.
Arguments b_next_obs {Frame} _.
Arguments b_done {Frame} _.

(** Conversion to the element type of the array written to.  A value
    outside the range is reduced as a C cast reduces it; within the range
    nothing happens. *)
Definition as_uint8 (z : Z) : Z := z `mod` 2 ^ 8.
Definition as_int16 (z : Z) : Z := (z + 2 ^ 15) `mod` 2 ^ 16 - 2 ^ 15.

(** ** class ReplayBuffer *)

Module ReplayBuffer.
Section WithFrame.
Context {Frame : Type}.
(** A frame of zeros, the content of [np.zeros]. *)
Variable zeros : Frame.

Record t := {
  obs_buf : list Frame;
  next_obs_buf : list Frame;
  rew_buf : list Z;
  act_buf : list Z;
  done_buf : list bool;
  memory_size : Z;
  idx : Z;
  size : Z
}.

(** [np.zeros] refuses a negative dimension; zero is a dimension like
    any other. *)
Definition init (memory_size : Z) : result t :=
  if memory_size <? 0 then Raise ValueError
  else
    let n := Z.to_nat memory_size in
    OK {| obs_buf := replicate n zeros;
          next_obs_buf := replicate n zeros;
          rew_buf := replicate n 0;
          act_buf := replicate n 0;
          done_buf := replicate n false;
          memory_size := memory_size;
          idx := 0;
          size := 0 |}.

Definition store (self : t) (transition : Transition Frame) : result t :=
  o ← setitem (obs_buf self) (idx self) (t_obs transition);
  a ← setitem (act_buf self) (idx self) (as_uint8 (t_act transition));
  r ← setitem (rew_buf self) (idx self) (as_int16 (t_rew transition));
  o' ← setitem (next_obs_buf self) (idx self) (t_next_obs transition);
  d ← setitem (done_buf self) (idx self) (t_done transition);
  if memory_size self =? 0 then Raise ZeroDivisionError
  else
    OK {| obs_buf := o;
          next_obs_buf := o';
          rew_buf := r;
          act_buf := a;
          done_buf := d;
          memory_size := memory_size self;
          idx := (idx self + 1) `mod` memory_size self;
          size := Z.min (size self + 1) (memory_size self) |}.

(** Returns the batch, the object as the call leaves it, and the
    generator. *)
Definition sample (self : t) (batch_size : Z) (g : RandomState)
  : result (Batch Frame * t * RandomState) :=
  '(idxs, g) ← randint 0 (size self) batch_size g;
  o ← getitems (obs_buf self) idxs;
  a ← getitems (act_buf self) idxs;
  r ← getitems (rew_buf self) idxs;
  o' ← getitems (next_obs_buf self) idxs;
  d ← getitems (done_buf self) idxs;
  OK ({| b_obs := o; b_act := a; b_rew := r; b_next_obs := o'; b_done := d |},
      self, g).

(** [store] called on each transition of a list, in order. *)
Fixpoint store_all (self : t) (ts : list (Transition Frame)) : result t :=
  match ts with
  | [] => OK self
  | tr :: ts' => self' ← store self tr; store_all self' ts'
  end.

(** The transition held at position [i] of the five arrays. *)
Definition entry (self : t) (i : nat) : option (Transition Frame) :=
  o ← obs_buf self !! i;
  a ← act_buf self !! i;
  r ← rew_buf self !! i;
  o' ← next_obs_buf self !! i;
  d ← done_buf self !! i;
  Some {| t_obs := o; t_act := a; t_rew := r; t_next_obs := o'; t_done := d |}.

(** The valid part of the buffer: positions [[0, size)], the ones
    [sample] draws from. *)
Definition contents (self : t) : list (Transition Frame) :=
  omap (entry self) (seq 0 (Z.to_nat (size self))).

End WithFrame.
Arguments t : clear implicits.
End ReplayBuffer.

(** ** torch reductions over one row of action values *)

(** The order [torch.argmax] reduces with: [a] at index [ia] beats [b] at
    index [ib] when it is greater, or a NaN, the lower index winning among
    equals. *)
Definition greater_or_nan (a b : F32.t) (ia ib : Z) : bool :=
  if F32.is_nan a then (if F32.is_nan b then ia <? ib else true)
  else if F32.eqb a b then ia <? ib
  else F32.ltb b a.

Fixpoint argmax_from (best : F32.t) (ibest i : Z) (l : list F32.t) : Z :=
  match l with
  | [] => ibest
  | x :: l' =>
      if greater_or_nan x best i ibest
      then argmax_from x i (i + 1) l'
      else argmax_from best ibest (i + 1) l'
  end.

(** [torch.argmax(q).item()]; an empty tensor has no argmax. *)
Definition argmax (q : list F32.t) : result Z :=
  match q with
  | [] => Raise IndexError
  | x :: l => OK (argmax_from x 0 1 l)
  end.

Fixpoint max_from (best : F32.t) (l : list F32.t) : F32.t :=
  match l with
  | [] => best
  | x :: l' =>
      if F32.is_nan best then best
      else if F32.leb x best then max_from best l'
      else max_from x l'
  end.

(** [q.max(dim=1)[0]] on one row: the greatest value, a NaN if there is
    one. *)
Definition max_value (q : list F32.t) : result F32.t :=
  match q with
  | [] => Raise IndexError
  | x :: l => OK (max_from x l)
  end.

(** [q.gather(1, act)] on one row; torch takes no negative index here. *)
Definition gather (q : list F32.t) (act : Z) : result F32.t :=
  if (0 <=? act) && (act <? Z.of_nat (length q)) then getitem q act
  else Raise RuntimeError.

(** The bootstrapped target of one transition:
    [reward + gamma * max_next * (~done).float()].  The product is taken
    first, in the tensor's dtype, the integer reward is converted last. *)
Definition td_target (gamma : F64.t) (reward : Z) (max_next : F32.t) (done : bool)
  : F32.t :=
  F32.add (F32.of_Z reward)
          (F32.mul (F32.mul (F32.of_f64 gamma) max_next) (F32.of_bool (negb done))).

Fixpoint td_targets (gamma : F64.t) (rs : list Z) (ms : list F32.t) (ds : list bool)
  : list F32.t :=
  match rs, ms, ds with
  | r :: rs', m :: ms', d :: ds' => td_target gamma r m d :: td_targets gamma rs' ms' ds'
  | _, _, _ => []
  end.

(** ** class DQNAgent *)

(** What the training loop does that can be observed from outside. *)
Inductive event : Set :=
| EnvReset
| EnvStep (action : Z)
| Store (size_after : Z)
| Replay
| Save (tmp : bool).

(** The fill of the buffer from which learning starts. *)
Definition min_fill : Z := 50000.

Module DQNAgent.
Section WithCollaborators.
Context {Frame : Type}.
Variable zeros : Frame.
(** The approximator: its parameters together with the optimiser's
    state, the forward pass on one observation, and one optimiser step on
    the loss between the predictions for [(obs, act)] and the targets. *)
Context {Params : Type}.
Variable forward : Params -> Frame -> list F32.t.
Variable optimise : Params -> list Frame -> list Z -> list F32.t -> Params.
(** The environment. *)
Context {Env : Type}.
Variable env_reset : Env -> Frame * Env.
Variable env_step : Env -> Z -> (Frame * Z * bool * bool) * Env.
Variable action_space_sample : Env -> Z * Env.

Record t := {
  env : Env;
  Q : Params;
  epsilon : F64.t;
  epsilon_min : F64.t;
  epsilon_decay_steps : Z;
  memory : ReplayBuffer.t Frame;
  gamma : F64.t;
  batch_size : Z
}.

Definition with_env (e : Env) (self : t) : t :=
  {| env := e; Q := Q self; epsilon := epsilon self;
     epsilon_min := epsilon_min self;
     epsilon_decay_steps := epsilon_decay_steps self;
     memory := memory self; gamma := gamma self;
     batch_size := batch_size self |}.

Definition with_Q (q : Params) (self : t) : t :=
  {| env := env self; Q := q; epsilon := epsilon self;
     epsilon_min := epsilon_min self;
     epsilon_decay_steps := epsilon_decay_steps self;
     memory := memory self; gamma := gamma self;
     batch_size := batch_size self |}.

Definition with_epsilon (eps : F64.t) (self : t) : t :=
  {| env := env self; Q := Q self; epsilon := eps;
     epsilon_min := epsilon_min self;
     epsilon_decay_steps := epsilon_decay_steps self;
     memory := memory self; gamma := gamma self;
     batch_size := batch_size self |}.

Definition with_memory (m : ReplayBuffer.t Frame) (self : t) : t :=
  {| env := env self; Q := Q self; epsilon := epsilon self;
     epsilon_min := epsilon_min self;
     epsilon_decay_steps := epsilon_decay_steps self;
     memory := m; gamma := gamma self;
     batch_size := batch_size self |}.

Definition init (e : Env) (q : Params) (epsilon epsilon_min : F64.t)
    (epsilon_decay_steps memory_size : Z) (gamma : F64.t) (batch_size : Z)
  : result t :=
  mem ← ReplayBuffer.init zeros memory_size;
  OK {| env := e; Q := q; epsilon := epsilon; epsilon_min := epsilon_min;
        epsilon_decay_steps := epsilon_decay_steps; memory := mem;
        gamma := gamma; batch_size := batch_size |}.

Definition get_action (self : t) (obs : Frame) (g : RandomState)
  : result (Z * t * RandomState) :=
  let '(u, g) := random g in
  if F64.ltb u (epsilon self) then
    let '(action, e) := action_space_sample (env self) in
    OK (action, with_env e self, g)
  else
    action ← argmax (forward (Q self) obs);
    OK (action, self, g).

Definition replay (self : t) (g : RandomState) : result (t * RandomState) :=
  '(batch, mem, g) ← ReplayBuffer.sample (memory self) (batch_size self) g;
  let self := with_memory mem self in
  q_values ← mapM (fun oa => gather (forward (Q self) oa.1) oa.2)
                  (zip (b_obs batch) (b_act batch));
  max_next_q_values ← mapM (fun o => max_value (forward (Q self) o))
                           (b_next_obs batch);
  let targets :=
    td_targets (gamma self) (b_rew batch) max_next_q_values (b_done batch) in
  OK (with_Q (optimise (Q self) (b_obs batch) (b_act batch) targets) self, g).

(** *** The training loop [learn]

    The two nested loops are run as a machine: [ForEpisode] is the head of
    the [for] loop, [While] the head of the [while not done] loop,
    [EndEpisode] the code after it, [Return] the end of [learn].  The
    record holds the agent, the generator, the local variables
    [epsilon_schedule] and [episode_rewards], and the trace of the calls
    made so far.  Logging, and the running averages that are only logged,
    are left out; [save] is the event [Save]. *)

Inductive pc :=
| ForEpisode (episode : Z)
| While (episode : Z) (obs : Frame) (episode_reward : Z)
| EndEpisode (episode : Z) (episode_reward : Z)
| Return.

Record run_state := {
  agent : t;
  rng : RandomState;
  epsilon_schedule : EpsilonDecaySchedule.t;
  episode_rewards : list Z;
  trace : list event
}.

(** One pass through the body of [while not done]. *)
Definition loop_body (episode : Z) (obs : Frame) (episode_reward : Z)
    (st : run_state) : result (pc * run_state) :=
  '(action, self, g) ← get_action (agent st) obs (rng st);
  let '((next_obs, reward, terminated, truncated), e) :=
    env_step (env self) action in
  let self := with_env e self in
  let done := terminated || truncated in
  let episode_reward := episode_reward + reward in
  mem ← ReplayBuffer.store (memory self)
          {| t_obs := obs; t_act := action; t_rew := reward;
             t_next_obs := next_obs; t_done := done |};
  let self := with_memory mem self in
  let tr := trace st ++ [EnvStep action; Store (ReplayBuffer.size (memory self))] in
  '(self, g, tr) ←
    (if min_fill <=? ReplayBuffer.size (memory self) then
       '(self, g) ← replay self g;
       OK (self, g, tr ++ [Replay])
     else OK (self, g, tr));
  '(eps, sched) ← EpsilonDecaySchedule.next_epsilon (epsilon_schedule st);
  let self := with_epsilon eps self in
  OK (if done then EndEpisode episode episode_reward
      else While episode next_obs episode_reward,
      {| agent := self; rng := g; epsilon_schedule := sched;
         episode_rewards := episode_rewards st; trace := tr |}).

Definition step (episodes : Z) (c : pc) (st : run_state)
  : result (pc * run_state) :=
  match c with
  | ForEpisode episode =>
      if episode <=? episodes then
        let '(obs, e) := env_reset (env (agent st)) in
        OK (While episode obs 0,
            {| agent := with_env e (agent st); rng := rng st;
               epsilon_schedule := epsilon_schedule st;
               episode_rewards := episode_rewards st;
               trace := trace st ++ [EnvReset] |})
      else
        OK (Return,
            {| agent := agent st; rng := rng st;
               epsilon_schedule := epsilon_schedule st;
               episode_rewards := episode_rewards st;
               trace := trace st ++ [Save false] |})
  | While episode obs episode_reward =>
      loop_body episode obs episode_reward st
  | EndEpisode episode episode_reward =>
      OK (ForEpisode (episode + 1),
          {| agent := agent st; rng := rng st;
             epsilon_schedule := epsilon_schedule st;
             episode_rewards := episode_rewards st ++ [episode_reward];
             trace := if episode `mod` 25 =? 0
                      then trace st ++ [Save true] else trace st |})
  | Return => OK (Return, st)
  end.

(** [fuel] steps of the machine. *)
Fixpoint run (fuel : nat) (episodes : Z) (c : pc) (st : run_state)
  : result (pc * run_state) :=
  match fuel with
  | O => OK (c, st)
  | S fuel' => '(c', st') ← step episodes c st; run fuel' episodes c' st'
  end.

(** [learn(episodes)], followed for [fuel] steps. *)
Definition learn (fuel : nat) (self : t) (episodes : Z) (g : RandomState)
  : result (pc * run_state) :=
  sched ← EpsilonDecaySchedule.init (epsilon self) (epsilon_min self)
            (epsilon_decay_steps self);
  run fuel episodes (ForEpisode 1)
      {| agent := self; rng := g; epsilon_schedule := sched;
         episode_rewards := []; trace := [] |}.

End WithCollaborators.
End DQNAgent.

(** The traces in which learning is gated by the fill of the buffer: a
    [Replay] comes only directly after a [Store] that left at least
    [min_fill] transitions, and every such [Store] is followed by one. *)
Fixpoint gated (tr : list event) : bool :=
  match tr with
  | [] => true
  | Store s :: tr' =>
      if min_fill <=? s then
        match tr' with
        | Replay :: tr'' => gated tr''
        | _ => false
        end
      else gated tr'
  | Replay :: _ => false
  | _ :: tr' => gated tr'
  end.

(** ** Notions the statements are made with *)

(** A transition as the arrays hold it. *)
Definition as_stored {Frame} (tr : Transition Frame) : Transition Frame :=
  {| t_obs := t_obs tr; t_act := as_uint8 (t_act tr); t_rew := as_int16 (t_rew tr);
     t_next_obs := t_next_obs tr; t_done := t_done tr |}.

(** The action is a [uint8] and the reward an [int16]: the element types of
    [act_buf] and [rew_buf]. *)
Definition fits_dtypes {Frame} (tr : Transition Frame) : bool :=
  (0 <=? t_act tr) && (t_act tr <? 2 ^ 8) && (- 2 ^ 15 <=? t_rew tr) && (t_rew tr <? 2 ^ 15).

(** The transition with tag [i], between the frames [obs i] and
    [obs (i + 1)]. *)
Definition tagged {Frame} (obs : Z -> Frame) (i : Z) : Transition Frame :=
  {| t_obs := obs i; t_act := i; t_rew := i; t_next_obs := obs (i + 1); t_done := false |}.

(** The five arrays have the length they were allocated with. *)
Record shaped {Frame} (C : nat) (b : ReplayBuffer.t Frame) : Prop := {
  sh_obs : length (ReplayBuffer.obs_buf b) = C;
  sh_next : length (ReplayBuffer.next_obs_buf b) = C;
  sh_rew : length (ReplayBuffer.rew_buf b) = C;
  sh_act : length (ReplayBuffer.act_buf b) = C;
  sh_done : length (ReplayBuffer.done_buf b) = C;
  sh_mem : ReplayBuffer.memory_size b = Z.of_nat C
}.

(** The state of the ring of capacity [C] after the transitions [ts] went
    in: transition [k] sits at position [k mod C] until it is overwritten. *)
Record ring {Frame} (C : nat) (ts : list (Transition Frame)) (b : ReplayBuffer.t Frame)
  : Prop := {
  ring_shaped : shaped C b;
  ring_idx : ReplayBuffer.idx b = Z.of_nat (length ts mod C);
  ring_size : ReplayBuffer.size b = Z.of_nat (Nat.min (length ts) C);
  ring_entry : forall k : nat,
    (k < length ts)%nat -> (length ts <= k + C)%nat ->
    ReplayBuffer.entry b (k mod C) = as_stored <$> ts !! k
}.

(** A client of the buffer: any sequence of calls of its two methods. *)
Inductive call (Frame : Type) :=
| CallStore (tr : Transition Frame)
| CallSample (batch_size : Z).
Arguments CallStore {Frame} tr.
Arguments CallSample {Frame} batch_size.

Fixpoint run_calls {Frame} (b : ReplayBuffer.t Frame) (g : RandomState)
    (cs : list (call Frame)) : result (ReplayBuffer.t Frame * RandomState) :=
  match cs with
  | [] => OK (b, g)
  | CallStore tr :: cs' => b' ← ReplayBuffer.store b tr; run_calls b' g cs'
  | CallSample n :: cs' =>
      '(_, b', g') ← ReplayBuffer.sample b n g; run_calls b' g' cs'
  end.

(** The transitions a sequence of calls stores. *)
Fixpoint stored {Frame} (cs : list (call Frame)) : list (Transition Frame) :=
  match cs with
  | [] => []
  | CallStore tr :: cs' => tr :: stored cs'
  | CallSample _ :: cs' => stored cs'
  end.

(** The generator that draws the vector [v] next. *)
Definition drawing (low : Z) (v : list Z) : RandomState :=
  {| raw := fun j => default low (v !! j) - low; cursor := 0 |}.

(** [a] is above [b] in the order of torch's reductions: a NaN is above
    every number. *)
Definition above (a b : F32.t) : bool :=
  if F32.is_nan a then negb (F32.is_nan b) else F32.ltb b a.

(** [i] is the position of the greatest element of [q] in that order, and
    the first one among equals. *)
Definition is_first_max (q : list F32.t) (i : Z) : Prop :=
  exists y, 0 <= i /\ q !! Z.to_nat i = Some y /\
    forall (j : nat) (x : F32.t), q !! j = Some x ->
      above x y = false /\ (Z.of_nat j < i -> above y x = true).

Definition not_neg_zero (x : F32.t) : bool :=
  match x with S754_zero true => false | _ => true end.

(** [p] holds of [0 .. n - 1]. *)
Definition all_below (p : Z -> bool) (n : N) : bool :=
  snd (N.iter n (fun '(k, ok) => (k + 1, ok && p k)) (0, true)).

(** The element of index [k] that [linspace] computes before it overwrites
    the last one. *)
Definition lin_elem (start stop : F64.t) (num k : Z) : F64.t :=
  F64.add (F64.mul (F64.of_Z k) (F64.div (F64.sub stop start) (F64.of_Z (num - 1)))) start.

(** *** The schedule of the default agent: [linspace(1.0, 0.1, 1000000)] *)

Definition default_steps : Z := 1000000.

Definition default_schedule : EpsilonDecaySchedule.t :=
  {| EpsilonDecaySchedule.step := 0;
     EpsilonDecaySchedule.schedule :=
       <[Z.to_nat (default_steps - 1) := F64.tenth]>
         (map (lin_elem F64.one F64.tenth default_steps) (arange default_steps)) |}.

(** What it holds at index [i]. *)
Definition default_at (i : Z) : F64.t :=
  if i <? default_steps - 1 then lin_elem F64.one F64.tenth default_steps i
  else F64.tenth.

(** The same elements on the machine's binary64 numbers, which the kernel
    computes with directly. *)
Definition default_step : float :=
  Eval vm_compute in
    ((SF2Prim F64.tenth - SF2Prim F64.one) / of_uint63 (Uint63.of_Z (default_steps - 1)))%float.

Definition default_elem (k : Z) : float :=
  (of_uint63 (Uint63.of_Z k) * default_step + 1)%float.

(** *** Values used in examples *)

(** The literals [0.99] and [2.0]. *)
Definition f64_099 : F64.t := S754_finite false 8917127262193582 (-53).
Definition f32_two : F32.t := S754_finite false 8388608 (-22).

Definition constant_generator : RandomState := {| raw := fun _ => 0; cursor := 0 |}.

(** A buffer of capacity 3 that holds two transitions. *)
Definition demo_buffer : ReplayBuffer.t Z :=
  {| ReplayBuffer.obs_buf := [10; 11; 0];
     ReplayBuffer.next_obs_buf := [11; 12; 0];
     ReplayBuffer.rew_buf := [1; -1; 0];
     ReplayBuffer.act_buf := [2; 3; 0];
     ReplayBuffer.done_buf := [false; true; false];
     ReplayBuffer.memory_size := 3;
     ReplayBuffer.idx := 2;
     ReplayBuffer.size := 2 |}.

(** An approximator with three actions, the last two of equal value; an
    environment that counts its steps and ends the episode at the second
    step; an optimiser that leaves the parameters alone. *)
Definition demo_forward (_ : unit) (_ : Z) : list F32.t := [F32.zero; F32.one; F32.one].
Definition demo_optimise (p : unit) (_ : list Z) (_ : list Z) (_ : list F32.t) : unit := p.
Definition demo_env_reset (e : Z) : Z * Z := (0, e).
Definition demo_env_step (e : Z) (a : Z) : (Z * Z * bool * bool) * Z :=
  ((e + 1, 1, 1 <=? e, false), e + 1).
Definition demo_action_space_sample (e : Z) : Z * Z := (0, e).

(** An agent whose buffer of capacity [min_fill] lacks two transitions to
    be full. *)
Definition demo_agent (eps : F64.t) : DQNAgent.t (Frame := Z) (Params := unit) (Env := Z) :=
  {| DQNAgent.env := 0;
     DQNAgent.Q := tt;
     DQNAgent.epsilon := eps;
     DQNAgent.epsilon_min := F64.tenth;
     DQNAgent.epsilon_decay_steps := 4;
     DQNAgent.memory :=
       {| ReplayBuffer.obs_buf := replicate (Z.to_nat min_fill) 0;
          ReplayBuffer.next_obs_buf := replicate (Z.to_nat min_fill) 0;
          ReplayBuffer.rew_buf := replicate (Z.to_nat min_fill) 0;
          ReplayBuffer.act_buf := replicate (Z.to_nat min_fill) 0;
          ReplayBuffer.done_buf := replicate (Z.to_nat min_fill) false;
          ReplayBuffer.memory_size := min_fill;
          ReplayBuffer.idx := min_fill - 2;
          ReplayBuffer.size := min_fill - 2 |};
     DQNAgent.gamma := f64_099;
     DQNAgent.batch_size := 2 |}.

(** One episode of training of that agent, followed to its end. *)
Abbreviation demo_learn :=
  (DQNAgent.learn demo_forward demo_optimise demo_env_reset demo_env_step
     demo_action_space_sample 5 (demo_agent F64.one) 1 constant_generator).

Definition trace_of (r : result (DQNAgent.pc (Frame := Z) * DQNAgent.run_state
                                   (Frame := Z) (Params := unit) (Env := Z)))
  : result (list event) :=
  '(_, st) ← r; OK (DQNAgent.trace st).

(** The literal [0.05]. *)
Definition f64_005 : F64.t := S754_finite false 7205759403792794 (-57).

(** ** [main.py]: the evaluation loop [test]

    The same machine as for [learn], without the buffer and the learning
    step.  What is printed (the reward of each episode and their mean) is
    left out. *)
Module Main.
Section WithCollaborators.
Context {Frame Params Env : Type}.
Variable forward : Params -> Frame -> list F32.t.
Variable env_reset : Env -> Frame * Env.
Variable env_step : Env -> Z -> (Frame * Z * bool * bool) * Env.
Variable action_space_sample : Env -> Z * Env.

Inductive pc :=
| ForEpisode (episode : Z)
| While (episode : Z) (obs : Frame) (episode_reward : Z)
| EndEpisode (episode : Z) (episode_reward : Z)
| Return.

Record run_state := {
  agent : DQNAgent.t (Frame := Frame) (Params := Params) (Env := Env);
  rng : RandomState;
  episode_rewards : list Z
}.

Definition loop_body (episode : Z) (obs : Frame) (episode_reward : Z)
    (st : run_state) : result (pc * run_state) :=
  '(action, self, g) ←
    DQNAgent.get_action forward action_space_sample (agent st) obs (rng st);
  let '((obs, reward, terminated, truncated), e) :=
    env_step (DQNAgent.env self) action in
  let self := DQNAgent.with_env e self in
  let done := terminated || truncated in
  let episode_reward := episode_reward + reward in
  OK (if done then EndEpisode episode episode_reward
      else While episode obs episode_reward,
      {| agent := self; rng := g; episode_rewards := episode_rewards st |}).

Definition step (episodes : Z) (c : pc) (st : run_state) : result (pc * run_state) :=
  match c with
  | ForEpisode episode =>
      if episode <=? episodes then
        let '(obs, e) := env_reset (DQNAgent.env (agent st)) in
        OK (While episode obs 0,
            {| agent := DQNAgent.with_env e (agent st); rng := rng st;
               episode_rewards := episode_rewards st |})
      else OK (Return, st)
  | While episode obs episode_reward => loop_body episode obs episode_reward st
  | EndEpisode episode episode_reward =>
      OK (ForEpisode (episode + 1),
          {| agent := agent st; rng := rng st;
             episode_rewards := episode_rewards st ++ [episode_reward] |})
  | Return => OK (Return, st)
  end.

Fixpoint run (fuel : nat) (episodes : Z) (c : pc) (st : run_state)
  : result (pc * run_state) :=
  match fuel with
  | O => OK (c, st)
  | S fuel' => '(c', st') ← step episodes c st; run fuel' episodes c' st'
  end.

(** [test(agent, episodes)], followed for [fuel] steps. *)
Definition test (fuel : nat)
    (agent : DQNAgent.t (Frame := Frame) (Params := Params) (Env := Env))
    (episodes : Z) (g : RandomState) : result (pc * run_state) :=
  run fuel episodes (ForEpisode 1)
      {| agent := DQNAgent.with_epsilon f64_005 agent; rng := g;
         episode_rewards := [] |}.

End WithCollaborators.
End Main.

(** ** More notions the statements are made with *)

(** The rows of a batch: the transitions its five arrays make up. *)
Fixpoint rows_of {Frame} (os : list Frame) (acts rews : list Z) (os' : list Frame)
    (ds : list bool) : list (Transition Frame) :=
  match os, acts, rews, os', ds with
  | o :: os, a :: acts, r :: rews, o' :: os', d :: ds =>
      {| t_obs := o; t_act := a; t_rew := r; t_next_obs := o'; t_done := d |}
        :: rows_of os acts rews os' ds
  | _, _, _, _, _ => []
  end.

Definition rows {Frame} (batch : Batch Frame) : list (Transition Frame) :=
  rows_of (b_obs batch) (b_act batch) (b_rew batch) (b_next_obs batch) (b_done batch).

(** How many transitions a trace stores, and how many steps of the
    environment it has. *)
Fixpoint count_stores (tr : list event) : Z :=
  match tr with
  | [] => 0
  | Store _ :: tr' => 1 + count_stores tr'
  | _ :: tr' => count_stores tr'
  end.

Fixpoint count_env_steps (tr : list event) : Z :=
  match tr with
  | [] => 0
  | EnvStep _ :: tr' => 1 + count_env_steps tr'
  | _ :: tr' => count_env_steps tr'
  end.

(** Where the training loop is tells how many episodes are over. *)
Definition episodes_done {Frame Params Env : Type} (episodes : Z)
    (c : DQNAgent.pc (Frame := Frame))
    (st : DQNAgent.run_state (Frame := Frame) (Params := Params) (Env := Env))
  : Prop :=
  let n := Z.of_nat (length (DQNAgent.episode_rewards st)) in
  match c with
  | DQNAgent.ForEpisode ep => 1 <= ep <= Z.max 0 episodes + 1 /\ n = ep - 1
  | DQNAgent.While ep _ _ => 1 <= ep <= episodes /\ n = ep - 1
  | DQNAgent.EndEpisode ep _ => 1 <= ep <= episodes /\ n = ep - 1
  | DQNAgent.Return => n = Z.max 0 episodes /\ last (DQNAgent.trace st) = Some (Save false)
  end.

(** The same for the evaluation loop. *)
Definition test_episodes_done {Frame Params Env : Type} (episodes : Z)
    (c : Main.pc (Frame := Frame))
    (st : Main.run_state (Frame := Frame) (Params := Params) (Env := Env)) : Prop :=
  let n := Z.of_nat (length (Main.episode_rewards st)) in
  match c with
  | Main.ForEpisode ep => 1 <= ep <= Z.max 0 episodes + 1 /\ n = ep - 1
  | Main.While ep _ _ => 1 <= ep <= episodes /\ n = ep - 1
  | Main.EndEpisode ep _ => 1 <= ep <= episodes /\ n = ep - 1
  | Main.Return => n = Z.max 0 episodes
  end.

(** What evaluation leaves alone: everything but the environment. *)
Definition same_learner {Frame Params Env : Type}
    (a b : DQNAgent.t (Frame := Frame) (Params := Params) (Env := Env)) : Prop :=
  DQNAgent.Q a = DQNAgent.Q b /\
  DQNAgent.memory a = DQNAgent.memory b /\
  DQNAgent.epsilon a = DQNAgent.epsilon b /\
  DQNAgent.gamma a = DQNAgent.gamma b /\
  DQNAgent.batch_size a = DQNAgent.batch_size b.

(** The value in force: the initial one before the first step, the
    schedule's afterwards. *)
Definition epsilon_in_force {Frame Params Env : Type} (eps0 : F64.t)
    (sched0 : list F64.t)
    (st : DQNAgent.run_state (Frame := Frame) (Params := Params) (Env := Env)) : Prop :=
  let s := DQNAgent.epsilon_schedule st in
  let n := EpsilonDecaySchedule.step s in
  EpsilonDecaySchedule.schedule s = sched0 /\
  0 <= n /\
  (n = 0 -> DQNAgent.epsilon (DQNAgent.agent st) = eps0) /\
  (1 <= n ->
   sched0 !! Z.to_nat (Z.min n (Z.of_nat (length sched0) - 1))
     = Some (DQNAgent.epsilon (DQNAgent.agent st))).

(** *** More values used in examples *)

(** An approximator with four actions, as many as the actions recorded in
    [demo_buffer] need. *)
Definition demo_forward4 (_ : unit) (_ : Z) : list F32.t :=
  [F32.zero; F32.one; F32.one; F32.zero].

(** A buffer of capacity 3 as the constructor leaves it. *)
Definition empty_buffer : ReplayBuffer.t Z :=
  {| ReplayBuffer.obs_buf := [0; 0; 0];
     ReplayBuffer.next_obs_buf := [0; 0; 0];
     ReplayBuffer.rew_buf := [0; 0; 0];
     ReplayBuffer.act_buf := [0; 0; 0];
     ReplayBuffer.done_buf := [false; false; false];
     ReplayBuffer.memory_size := 3;
     ReplayBuffer.idx := 0;
     ReplayBuffer.size := 0 |}.

(** An agent on [demo_buffer]. *)
Definition small_agent (eps : F64.t) (decay_steps : Z)
  : DQNAgent.t (Frame := Z) (Params := unit) (Env := Z) :=
  {| DQNAgent.env := 0;
     DQNAgent.Q := tt;
     DQNAgent.epsilon := eps;
     DQNAgent.epsilon_min := F64.tenth;
     DQNAgent.epsilon_decay_steps := decay_steps;
     DQNAgent.memory := demo_buffer;
     DQNAgent.gamma := f64_099;
     DQNAgent.batch_size := 2 |}.

(** One episode of training, and of evaluation, of that agent, followed to
    the end. *)
Abbreviation small_learn :=
  (DQNAgent.learn demo_forward demo_optimise demo_env_reset demo_env_step
     demo_action_space_sample 5 (small_agent F64.one 4) 1 constant_generator).
Abbreviation small_test :=
  (Main.test demo_forward demo_env_reset demo_env_step
     demo_action_space_sample 5 (small_agent F64.one 4) 1 constant_generator).

(** * Proofs *)

(** ** Indexing and drawing *)

Lemma bind_OK {A B} (a : A) (k : A -> result B) : (OK a ≫= k) = k a.
Proof. reflexivity. Qed.

Lemma norm_index_in (len i : Z) :
  0 <= i < len -> norm_index len i = OK (Z.to_nat i).
Proof.
  intros H. unfold norm_index.
  destruct (Z.ltb_spec i 0); [lia|].
  destruct (Z.leb_spec 0 i); [|lia].
  destruct (Z.ltb_spec i len); [|lia]. reflexivity.
Qed.

Lemma norm_index_last (len : Z) :
  1 <= len -> norm_index len (-1) = OK (Z.to_nat (len - 1)).
Proof.
  intros H. unfold norm_index. simpl.
  destruct (Z.leb_spec 0 (-1 + len)); [|lia].
  destruct (Z.ltb_spec (-1 + len) len); [|lia]. simpl.
  do 2 f_equal. lia.
Qed.

Lemma setitem_in {A} (a : list A) (i : nat) (x : A) :
  (i < length a)%nat -> setitem a (Z.of_nat i) x = OK (<[i := x]> a).
Proof.
  intros H. unfold setitem. rewrite norm_index_in by lia.
  rewrite Nat2Z.id. reflexivity.
Qed.

Lemma getitem_in {A} (a : list A) (i : nat) (x : A) :
  a !! i = Some x -> getitem a (Z.of_nat i) = OK x.
Proof.
  intros H. unfold getitem.
  pose proof (lookup_lt_Some _ _ _ H).
  rewrite norm_index_in by lia. rewrite Nat2Z.id. simpl. rewrite H. reflexivity.
Qed.

Lemma getitems_ok {A} (a : list A) (idxs : list Z) :
  Forall (fun i => 0 <= i < Z.of_nat (length a)) idxs ->
  exists out, getitems a idxs = OK out /\
              Forall2 (fun i x => a !! Z.to_nat i = Some x) idxs out.
Proof.
  induction 1 as [|i idxs Hi _ (out & Hout & Hall)].
  - exists []. split; [reflexivity|constructor].
  - destruct (lookup_lt_is_Some_2 a (Z.to_nat i) ltac:(lia)) as [x Hx].
    exists (x :: out). split.
    + unfold getitems in *. cbn [mapM].
      replace i with (Z.of_nat (Z.to_nat i)) at 1 by lia.
      rewrite (getitem_in _ _ _ Hx). simpl. rewrite Hout. reflexivity.
    + constructor; done.
Qed.

Lemma randint_ok (low high n : Z) (g : RandomState) :
  1 <= n -> low < high ->
  exists idxs,
    randint low high n g = OK (idxs, advance (Z.to_nat n) g) /\
    length idxs = Z.to_nat n /\
    Forall (fun i => low <= i < high) idxs.
Proof.
  intros Hn Hlh. unfold randint.
  destruct (Z.ltb_spec n 0); [lia|].
  destruct (Z.eqb_spec n 0); [lia|].
  destruct (Z.leb_spec high low); [lia|].
  eexists. split; [reflexivity|]. split.
  - rewrite length_map, length_seq. reflexivity.
  - change (map ?f ?l) with (f <$> l).
    apply Forall_fmap, Forall_forall. intros j _. simpl.
    pose proof (Z.mod_pos_bound (raw g (cursor g + j)) (high - low) ltac:(lia)). lia.
Qed.

Lemma randint_reaches (low high n : Z) (v : list Z) :
  1 <= n -> length v = Z.to_nat n ->
  Forall (fun i => low <= i < high) v ->
  randint low high n (drawing low v) = OK (v, advance (Z.to_nat n) (drawing low v)).
Proof.
  intros Hn Hlen Hv. unfold randint.
  destruct (Z.ltb_spec n 0); [lia|].
  destruct (Z.eqb_spec n 0); [lia|].
  assert (Hlh : low < high).
  { destruct v as [|i v]; [simpl in Hlen; lia|]. inversion Hv; lia. }
  destruct (Z.leb_spec high low); [lia|].
  do 2 f_equal. rewrite <- Hlen. apply list_eq. intros j.
  change (map ?f ?l) with (f <$> l).
  rewrite list_lookup_fmap. destruct (v !! j) as [x|] eqn:Hx.
  - rewrite lookup_seq_lt by (eapply lookup_lt_Some; eauto). simpl. rewrite Hx. simpl.
    f_equal. rewrite Forall_forall in Hv.
    assert (low <= x < high).
    { apply Hv. eapply list_elem_of_lookup_2; eauto. }
    rewrite Z.mod_small by lia. lia.
  - rewrite lookup_seq_ge by (apply lookup_ge_None; done). reflexivity.
Qed.

Lemma omap_seq_lookup {A} (f : nat -> option A) (L : list A) (s : nat) :
  (forall j, (j < length L)%nat -> f (s + j)%nat = L !! j) ->
  omap f (seq s (length L)) = L.
Proof.
  revert s. induction L as [|x L IH]; intros s H; simpl; [reflexivity|].
  pose proof (H O ltac:(simpl; lia)) as H0. rewrite Nat.add_0_r in H0.
  rewrite H0. simpl. f_equal. apply IH.
  intros j Hj. replace (S s + j)%nat with (s + S j)%nat by lia.
  apply H. simpl; lia.
Qed.

Lemma all_below_spec (p : Z -> bool) (n : N) :
  all_below p n = true -> forall k, 0 <= k < Z.of_N n -> p k = true.
Proof.
  unfold all_below. induction n as [|n IH] using N.peano_ind.
  - intros _ k Hk. lia.
  - rewrite N.iter_succ.
    assert (Hfst : forall m, fst (N.iter m (fun '(k, ok) => (k + 1, ok && p k)) (0, true)) = Z.of_N m).
    { intros m. induction m as [|m IHm] using N.peano_ind; [done|].
      rewrite N.iter_succ. destruct (N.iter m _ _) as [k ok]. simpl in *. lia. }
    specialize (Hfst n).
    destruct (N.iter n _ _) as [k0 ok]. simpl in *. subst k0.
    rewrite andb_true_iff. intros [Hok Hp] k Hk.
    destruct (decide (k = Z.of_N n)) as [->|Hne]; [done|].
    apply IH; [done|lia].
Qed.

(** ** The replay buffer *)

Section BufferProofs.
Context {Frame : Type} (zeros : Frame).
Implicit Types (b : ReplayBuffer.t Frame) (tr : Transition Frame)
  (ts : list (Transition Frame)).

Lemma as_stored_fits tr : fits_dtypes tr = true -> as_stored tr = tr.
Proof.
  unfold fits_dtypes. rewrite !andb_true_iff.
  intros [[[H1 H2] H3] H4]. destruct tr as [o a r o' d]; simpl in *.
  unfold as_stored, as_uint8, as_int16; simpl. f_equal.
  - apply Z.mod_small. lia.
  - rewrite Z.mod_small by lia. lia.
Qed.

Lemma init_ok (C : nat) :
  exists b, ReplayBuffer.init zeros (Z.of_nat C) = OK b /\ shaped C b /\
            ReplayBuffer.idx b = 0 /\ ReplayBuffer.size b = 0.
Proof.
  unfold ReplayBuffer.init. destruct (Z.ltb_spec (Z.of_nat C) 0); [lia|].
  eexists; split; [reflexivity|]. rewrite Nat2Z.id.
  split; [|split; reflexivity].
  constructor; simpl; rewrite ?length_replicate; reflexivity.
Qed.

Lemma store_ok (C : nat) b tr (i : nat) :
  shaped C b -> ReplayBuffer.idx b = Z.of_nat i -> (i < C)%nat ->
  ReplayBuffer.store b tr =
    OK {| ReplayBuffer.obs_buf := <[i := t_obs tr]> (ReplayBuffer.obs_buf b);
          ReplayBuffer.next_obs_buf := <[i := t_next_obs tr]> (ReplayBuffer.next_obs_buf b);
          ReplayBuffer.rew_buf := <[i := as_int16 (t_rew tr)]> (ReplayBuffer.rew_buf b);
          ReplayBuffer.act_buf := <[i := as_uint8 (t_act tr)]> (ReplayBuffer.act_buf b);
          ReplayBuffer.done_buf := <[i := t_done tr]> (ReplayBuffer.done_buf b);
          ReplayBuffer.memory_size := Z.of_nat C;
          ReplayBuffer.idx := Z.of_nat (S i mod C);
          ReplayBuffer.size := Z.min (ReplayBuffer.size b + 1) (Z.of_nat C) |}.
Proof.
  intros [H1 H2 H3 H4 H5 H6] Hi Hlt. unfold ReplayBuffer.store.
  rewrite Hi, H6.
  rewrite !setitem_in by lia. simpl.
  destruct (Z.eqb_spec (Z.of_nat C) 0); [lia|].
  do 3 f_equal. rewrite Nat2Z.inj_mod. f_equal. lia.
Qed.

Lemma store_shaped (C : nat) b b' tr (i : nat) :
  shaped C b -> ReplayBuffer.idx b = Z.of_nat i -> (i < C)%nat ->
  ReplayBuffer.store b tr = OK b' -> shaped C b'.
Proof.
  intros Hs Hi Hlt. rewrite (store_ok C b tr i Hs Hi Hlt).
  intros [= <-]. destruct Hs. constructor; simpl; rewrite ?length_insert; done.
Qed.

Lemma entry_store (C : nat) b b' tr (i j : nat) :
  shaped C b -> ReplayBuffer.idx b = Z.of_nat i -> (i < C)%nat ->
  ReplayBuffer.store b tr = OK b' ->
  ReplayBuffer.entry b' j =
    if decide (i = j) then Some (as_stored tr) else ReplayBuffer.entry b j.
Proof.
  intros Hs Hi Hlt. rewrite (store_ok C b tr i Hs Hi Hlt).
  intros [= <-]. destruct Hs. unfold ReplayBuffer.entry; simpl.
  destruct (decide (i = j)) as [<-|Hne].
  - rewrite !list_lookup_insert_eq by lia. reflexivity.
  - rewrite !list_lookup_insert_ne by done. reflexivity.
Qed.

Lemma store_all_app b ts1 ts2 :
  ReplayBuffer.store_all b (ts1 ++ ts2) =
  (b' ← ReplayBuffer.store_all b ts1; ReplayBuffer.store_all b' ts2).
Proof.
  revert b. induction ts1 as [|tr ts1 IH]; intros b; simpl; [reflexivity|].
  destruct (ReplayBuffer.store b tr) as [b1|e]; simpl; [apply IH|reflexivity].
Qed.

Lemma mod_apart (C k n : nat) :
  (k < n)%nat -> (n < k + C)%nat -> (n mod C)%nat <> (k mod C)%nat.
Proof.
  intros Hk Hn Heq.
  assert (HC : C <> O) by lia.
  pose proof (Nat.div_mod_eq n C). pose proof (Nat.div_mod_eq k C).
  assert (n / C = k / C \/ n / C < k / C \/ k / C < n / C)%nat as [E|[E|E]] by lia; nia.
Qed.

Lemma ring_store (C : nat) ts b tr :
  (1 <= C)%nat -> ring C ts b ->
  exists b', ReplayBuffer.store b tr = OK b' /\ ring C (ts ++ [tr]) b'.
Proof.
  intros HC [Hs Hi Hz He].
  assert (Hlt : (length ts mod C < C)%nat) by (apply Nat.mod_upper_bound; lia).
  pose proof (store_ok C b tr _ Hs Hi Hlt) as Hst.
  eexists; split; [exact Hst|].
  constructor.
  - eapply store_shaped; eauto.
  - simpl. rewrite length_app; simpl. f_equal.
    replace (S (length ts mod C)) with (length ts mod C + 1)%nat by lia.
    apply Nat.Div0.add_mod_idemp_l.
  - simpl. rewrite Hz, length_app; simpl. lia.
  - intros k Hk Hn. rewrite length_app in Hk, Hn; simpl in Hk, Hn.
    rewrite (entry_store C b _ tr _ (k mod C) Hs Hi Hlt Hst).
    destruct (decide (k = length ts)) as [->|Hne].
    + rewrite decide_True by done.
      rewrite lookup_app_r by lia. rewrite Nat.sub_diag. reflexivity.
    + rewrite decide_False by (apply mod_apart; lia).
      rewrite lookup_app_l by lia. apply He; lia.
Qed.

Lemma ring_store_all (C : nat) ts :
  (1 <= C)%nat ->
  exists b0 b, ReplayBuffer.init zeros (Z.of_nat C) = OK b0 /\
               ReplayBuffer.store_all b0 ts = OK b /\ ring C ts b.
Proof.
  intros HC. destruct (init_ok C) as (b0 & Hinit & Hs & Hi & Hz).
  exists b0. induction ts as [|tr ts IH] using rev_ind.
  - exists b0. split; [done|]. split; [done|].
    constructor; simpl; try done.
    + rewrite Hi. rewrite Nat.Div0.mod_0_l. done.
    + intros k Hk; lia.
  - destruct IH as (b & _ & Hall & Hr).
    destruct (ring_store C ts b tr HC Hr) as (b' & Hst & Hr').
    exists b'. split; [done|]. split; [|done].
    rewrite store_all_app, Hall. simpl. rewrite Hst. reflexivity.
Qed.

Lemma contents_filling (C : nat) ts b :
  ring C ts b -> (length ts <= C)%nat ->
  ReplayBuffer.contents b = as_stored <$> ts.
Proof.
  intros [Hs Hi Hz He] Hn. unfold ReplayBuffer.contents.
  rewrite Hz, Nat2Z.id, Nat.min_l by lia.
  rewrite <- (length_fmap as_stored ts).
  apply omap_seq_lookup. intros j Hj. rewrite length_fmap in Hj.
  rewrite list_lookup_fmap. simpl.
  rewrite <- (He j) by lia. rewrite Nat.mod_small by lia. reflexivity.
Qed.

(** Once full, the arrays hold the last [C] transitions, the oldest one
    at the cursor. *)
Lemma contents_full (C : nat) ts b :
  ring C ts b -> (1 <= C)%nat -> (C <= length ts)%nat ->
  ReplayBuffer.contents b =
    as_stored <$> (drop (length ts - length ts mod C) ts ++
                   take (C - length ts mod C) (drop (length ts - C) ts)).
Proof.
  intros [Hs Hi Hz He] HC Hn. unfold ReplayBuffer.contents.
  set (n := length ts) in *. set (i := (n mod C)%nat) in *.
  assert (Hi' : (i < C)%nat) by (apply Nat.mod_upper_bound; lia).
  assert (Hin : (i <= n)%nat) by (apply Nat.Div0.mod_le).
  pose proof (Nat.div_mod_eq n C) as Hdm. fold i in Hdm.
  rewrite Hz, Nat2Z.id, Nat.min_r by lia.
  set (L := as_stored <$> _).
  assert (HL : length L = C).
  { unfold L. rewrite length_fmap, length_app, length_take, !length_drop. fold n. lia. }
  rewrite <- HL. apply omap_seq_lookup. rewrite HL. intros j Hj. simpl.
  unfold L. rewrite list_lookup_fmap.
  destruct (decide (j < i)%nat) as [Hji|Hji].
  - rewrite lookup_app_l by (rewrite length_drop; fold n; lia).
    rewrite lookup_drop.
    rewrite <- (He (n - i + j)%nat) by lia. f_equal.
    replace (n - i + j)%nat with (j + (n / C) * C)%nat by lia.
    rewrite Nat.Div0.mod_add. rewrite Nat.mod_small by lia. reflexivity.
  - rewrite lookup_app_r by (rewrite length_drop; fold n; lia).
    rewrite length_drop. fold n.
    rewrite lookup_take_lt by lia. rewrite lookup_drop.
    rewrite <- (He (n - C + (j - (n - (n - i))))%nat) by lia. f_equal.
    assert (1 <= n / C)%nat by (apply Nat.div_str_pos; lia).
    replace (n - C + (j - (n - (n - i))))%nat with (j + (n / C - 1) * C)%nat by nia.
    rewrite Nat.Div0.mod_add. rewrite Nat.mod_small by lia. reflexivity.
Qed.

Lemma contents_recent (C : nat) ts b :
  ring C ts b -> (1 <= C)%nat ->
  ReplayBuffer.contents b ≡ₚ as_stored <$> drop (length ts - Nat.min (length ts) C) ts.
Proof.
  intros Hr HC. destruct (decide (length ts <= C)%nat) as [Hn|Hn].
  - rewrite (contents_filling C ts b Hr Hn).
    rewrite Nat.min_l by lia. rewrite Nat.sub_diag. reflexivity.
  - rewrite (contents_full C ts b Hr HC) by lia.
    rewrite Nat.min_r by lia.
    assert (Hi' : (length ts mod C < C)%nat) by (apply Nat.mod_upper_bound; lia).
    assert (Hin : (length ts mod C <= length ts)%nat) by (apply Nat.Div0.mod_le).
    rewrite <- (take_drop (C - length ts mod C) (drop (length ts - C) ts)) at 2.
    rewrite drop_drop.
    replace (length ts - C + (C - length ts mod C))%nat
      with (length ts - length ts mod C)%nat by lia.
    rewrite !fmap_app. apply Permutation_app_comm.
Qed.

Lemma sample_ok (C : nat) b (n : Z) (g : RandomState) (idxs : list Z) (g' : RandomState) :
  shaped C b -> ReplayBuffer.size b <= Z.of_nat C ->
  randint 0 (ReplayBuffer.size b) n g = OK (idxs, g') ->
  Forall (fun i => 0 <= i < ReplayBuffer.size b) idxs ->
  exists batch,
    ReplayBuffer.sample b n g = OK (batch, b, g') /\
    Forall2 (fun i x => ReplayBuffer.obs_buf b !! Z.to_nat i = Some x) idxs (b_obs batch) /\
    Forall2 (fun i x => ReplayBuffer.act_buf b !! Z.to_nat i = Some x) idxs (b_act batch) /\
    Forall2 (fun i x => ReplayBuffer.rew_buf b !! Z.to_nat i = Some x) idxs (b_rew batch) /\
    Forall2 (fun i x => ReplayBuffer.next_obs_buf b !! Z.to_nat i = Some x) idxs
            (b_next_obs batch) /\
    Forall2 (fun i x => ReplayBuffer.done_buf b !! Z.to_nat i = Some x) idxs (b_done batch).
Proof.
  intros [H1 H2 H3 H4 H5 H6] Hsz Hr Hin.
  assert (Hin' : forall A (a : list A), length a = C ->
             Forall (fun i => 0 <= i < Z.of_nat (length a)) idxs).
  { intros A a Ha. rewrite Ha. eapply Forall_impl; [exact Hin|]. simpl. intros; lia. }
  destruct (getitems_ok _ idxs (Hin' _ _ H1)) as (o & Ho & Fo).
  destruct (getitems_ok _ idxs (Hin' _ _ H4)) as (a & Ha & Fa).
  destruct (getitems_ok _ idxs (Hin' _ _ H3)) as (r & Hr' & Fr).
  destruct (getitems_ok _ idxs (Hin' _ _ H2)) as (o' & Ho' & Fo').
  destruct (getitems_ok _ idxs (Hin' _ _ H5)) as (d & Hd & Fd).
  eexists. split.
  - unfold ReplayBuffer.sample. rewrite Hr. simpl.
    rewrite Ho. simpl. rewrite Ha. simpl. rewrite Hr'. simpl.
    rewrite Ho'. simpl. rewrite Hd. simpl. reflexivity.
  - simpl. auto.
Qed.

Lemma sample_frame b (n : Z) (g : RandomState) batch b' g' :
  ReplayBuffer.sample b n g = OK (batch, b', g') -> b' = b.
Proof.
  unfold ReplayBuffer.sample.
  destruct (randint _ _ _ _) as [[idxs g1]|e]; simpl; [|discriminate].
  destruct (getitems (ReplayBuffer.obs_buf b) idxs); simpl; [|discriminate].
  destruct (getitems (ReplayBuffer.act_buf b) idxs); simpl; [|discriminate].
  destruct (getitems (ReplayBuffer.rew_buf b) idxs); simpl; [|discriminate].
  destruct (getitems (ReplayBuffer.next_obs_buf b) idxs); simpl; [|discriminate].
  destruct (getitems (ReplayBuffer.done_buf b) idxs); simpl; [|discriminate].
  intros [= _ <- _]. reflexivity.
Qed.

Lemma sample_total (C : nat) b (n : Z) (g : RandomState) :
  shaped C b -> 1 <= ReplayBuffer.size b <= Z.of_nat C -> 0 <= n ->
  exists batch g', ReplayBuffer.sample b n g = OK (batch, b, g') /\
                   length (b_obs batch) = Z.to_nat n.
Proof.
  intros Hs Hsz Hn. destruct (Z.eq_dec n 0) as [->|Hne].
  - eexists _, _. split; reflexivity.
  - destruct (randint_ok 0 (ReplayBuffer.size b) n g ltac:(lia) ltac:(lia))
      as (idxs & Hr & Hlen & Hin).
    destruct (sample_ok C b n g idxs _ Hs ltac:(lia) Hr Hin)
      as (batch & Hsample & Ho & _).
    exists batch, (advance (Z.to_nat n) g). split; [done|].
    rewrite <- (Forall2_length _ _ _ Ho). done.
Qed.

Lemma store_lengths b tr b' :
  ReplayBuffer.store b tr = OK b' ->
  length (ReplayBuffer.obs_buf b') = length (ReplayBuffer.obs_buf b) /\
  length (ReplayBuffer.next_obs_buf b') = length (ReplayBuffer.next_obs_buf b) /\
  length (ReplayBuffer.rew_buf b') = length (ReplayBuffer.rew_buf b) /\
  length (ReplayBuffer.act_buf b') = length (ReplayBuffer.act_buf b) /\
  length (ReplayBuffer.done_buf b') = length (ReplayBuffer.done_buf b) /\
  ReplayBuffer.memory_size b' = ReplayBuffer.memory_size b.
Proof.
  unfold ReplayBuffer.store, setitem.
  destruct (norm_index (Z.of_nat (length (ReplayBuffer.obs_buf b))) _);
    simpl; [|discriminate].
  destruct (norm_index (Z.of_nat (length (ReplayBuffer.act_buf b))) _);
    simpl; [|discriminate].
  destruct (norm_index (Z.of_nat (length (ReplayBuffer.rew_buf b))) _);
    simpl; [|discriminate].
  destruct (norm_index (Z.of_nat (length (ReplayBuffer.next_obs_buf b))) _);
    simpl; [|discriminate].
  destruct (norm_index (Z.of_nat (length (ReplayBuffer.done_buf b))) _);
    simpl; [|discriminate].
  destruct (_ =? 0); [discriminate|].
  intros [= <-]. simpl. rewrite !length_insert. auto 10.
Qed.

Lemma store_shaped' (C : nat) b tr b' :
  shaped C b -> ReplayBuffer.store b tr = OK b' -> shaped C b'.
Proof.
  intros [H1 H2 H3 H4 H5 H6] Hst.
  destruct (store_lengths _ _ _ Hst) as (E1 & E2 & E3 & E4 & E5 & E6).
  constructor; congruence.
Qed.

Lemma run_calls_stores b g cs b' g' :
  run_calls b g cs = OK (b', g') ->
  ReplayBuffer.store_all b (stored cs) = OK b'.
Proof.
  revert b g. induction cs as [|[tr|n] cs IH]; intros b g; simpl.
  - intros [= <- _]. reflexivity.
  - destruct (ReplayBuffer.store b tr) as [b1|e]; simpl; [|discriminate]. apply IH.
  - destruct (ReplayBuffer.sample b n g) as [[[batch b1] g1]|e] eqn:Hs; simpl;
      [|discriminate].
    apply sample_frame in Hs as ->. apply IH.
Qed.

Lemma store_all_shaped (C : nat) b ts b' :
  shaped C b -> ReplayBuffer.store_all b ts = OK b' -> shaped C b'.
Proof.
  revert b. induction ts as [|tr ts IH]; intros b Hs; simpl.
  - intros [= <-]. done.
  - destruct (ReplayBuffer.store b tr) as [b1|e] eqn:Hst; simpl; [|discriminate].
    apply IH. eapply store_shaped'; eauto.
Qed.

End BufferProofs.


(** *** Claims about the buffer *)

(** C1, as stated, fails: what is stored is converted to the element type
    of the array it goes to, so not every transition is held as it was
    stored.  An action of 256 is held as 0 in [act_buf], a [uint8]
    array. *)
Lemma out_of_range_action_not_kept :
  exists b0 b,
    ReplayBuffer.init tt 5 = OK b0 /\
    ReplayBuffer.store_all b0
      [{| t_obs := tt; t_act := 256; t_rew := 0; t_next_obs := tt; t_done := false |}]
      = OK b /\
    ReplayBuffer.size b = 1 /\
    ReplayBuffer.contents b =
      [{| t_obs := tt; t_act := 0; t_rew := 0; t_next_obs := tt; t_done := false |}] /\
    ReplayBuffer.contents b <>
      [{| t_obs := tt; t_act := 256; t_rew := 0; t_next_obs := tt; t_done := false |}].
Proof.
  eexists _, _. split; [reflexivity|]. split; [vm_compute; reflexivity|].
  split; [reflexivity|]. split; [vm_compute; reflexivity|].
  vm_compute. discriminate.
Qed.

(** C1, amended.  For every capacity [C >= 1] and every list [ts] of
    transitions within the arrays' element types (an action in
    [[0, 255]], a reward in [[-32768, 32767]]), stored one after the other
    into a new buffer: [size] is [min (length ts) C]; the valid part of the
    arrays is, up to the order, the last [size] transitions of [ts]; the
    transition number [k] of the last [C] sits at position [k mod C] (ring
    order).  With capacity 5 and the seven transitions tagged 0..6, the
    arrays hold the transitions 5, 6, 2, 3, 4 and [size] is 5. *)
Theorem store_keeps_most_recent {Frame : Type} (zeros : Frame) (obs : Z -> Frame)
    (C : Z) (ts : list (Transition Frame)) :
  1 <= C ->
  Forall (fun tr => fits_dtypes tr = true) ts ->
  (exists b0 b,
      ReplayBuffer.init zeros C = OK b0 /\
      ReplayBuffer.store_all b0 ts = OK b /\
      ReplayBuffer.size b = Z.min (Z.of_nat (length ts)) C /\
      ReplayBuffer.contents b ≡ₚ
        drop (length ts - Z.to_nat (ReplayBuffer.size b)) ts /\
      (forall k : nat,
          (k < length ts)%nat -> (length ts <= k + Z.to_nat C)%nat ->
          ReplayBuffer.entry b (k mod Z.to_nat C) = ts !! k)) /\
  (exists b0 b,
      ReplayBuffer.init zeros 5 = OK b0 /\
      ReplayBuffer.store_all b0 (tagged obs <$> [0; 1; 2; 3; 4; 5; 6]) = OK b /\
      ReplayBuffer.size b = 5 /\
      ReplayBuffer.contents b = tagged obs <$> [5; 6; 2; 3; 4]).
Proof.
  intros HC Hfit. split.
  - destruct (ring_store_all zeros (Z.to_nat C) ts ltac:(lia))
      as (b0 & b & Hinit & Hall & Hr).
    rewrite Z2Nat.id in Hinit by lia.
    exists b0, b. split; [done|]. split; [done|].
    assert (Hmap : as_stored <$> ts = ts).
    { clear -Hfit. induction Hfit as [|tr ts Htr _ IH]; [done|].
      rewrite fmap_cons, IH, as_stored_fits by done. done. }
    assert (Hsz : ReplayBuffer.size b = Z.min (Z.of_nat (length ts)) C).
    { rewrite (ring_size _ _ _ Hr). lia. }
    split; [done|]. split.
    + rewrite (contents_recent (Z.to_nat C) ts b Hr) by lia.
      rewrite fmap_drop, Hmap.
      rewrite (ring_size _ _ _ Hr), Nat2Z.id. reflexivity.
    + intros k Hk Hn. rewrite (ring_entry _ _ _ Hr k Hk Hn).
      rewrite <- list_lookup_fmap, Hmap. reflexivity.
  - eexists _, _. split; [reflexivity|].
    split; [vm_compute; reflexivity|]. split; vm_compute; reflexivity.
Qed.

Lemma store_keeps_most_recent_witness :
  1 <= 3 /\
  Forall (fun tr => fits_dtypes tr = true) (tagged (fun i => i) <$> [0; 1; 2; 3]) /\
  exists b0 b,
    ReplayBuffer.init 0 3 = OK b0 /\
    ReplayBuffer.store_all b0 (tagged (fun i => i) <$> [0; 1; 2; 3]) = OK b /\
    ReplayBuffer.size b = 3 /\
    ReplayBuffer.contents b ≡ₚ tagged (fun i => i) <$> [1; 2; 3].
Proof.
  assert (H1 : 1 <= 3) by lia.
  assert (H2 : Forall (fun tr => fits_dtypes tr = true)
                      (tagged (fun i : Z => i) <$> [0; 1; 2; 3]))
    by (repeat constructor).
  split; [exact H1|]. split; [exact H2|].
  destruct (store_keeps_most_recent 0 (fun i => i) 3 _ H1 H2)
    as [(b0 & b & Hinit & Hall & Hsz & Hcont & _) _].
  exists b0, b. split; [exact Hinit|]. split; [exact Hall|].
  split; [exact Hsz|]. rewrite Hsz in Hcont. exact Hcont.
Defined.

(** C4.  For a buffer with [size >= 1] and [batch_size >= 1], [sample]
    draws [batch_size] indices, each in [[0, size)], and returns the five
    arrays read at those indices, leaving the buffer as it was; with
    [size = 1] every index is 0.  Every vector of [batch_size] indices of
    [[0, size)] is drawn by some state of the generator, vectors with a
    repeated index among them (drawing with replacement).  How likely each
    vector is lies in the generator's stream and is not modelled. *)
Theorem sample_draws_in_range {Frame : Type} (C : nat) (b : ReplayBuffer.t Frame)
    (batch_size : Z) (g : RandomState) :
  shaped C b -> 1 <= ReplayBuffer.size b <= Z.of_nat C -> 1 <= batch_size ->
  (exists idxs batch,
      randint 0 (ReplayBuffer.size b) batch_size g
        = OK (idxs, advance (Z.to_nat batch_size) g) /\
      ReplayBuffer.sample b batch_size g
        = OK (batch, b, advance (Z.to_nat batch_size) g) /\
      length idxs = Z.to_nat batch_size /\
      Forall (fun i => 0 <= i < ReplayBuffer.size b) idxs /\
      (ReplayBuffer.size b = 1 -> Forall (fun i => i = 0) idxs) /\
      Forall2 (fun i x => ReplayBuffer.obs_buf b !! Z.to_nat i = Some x) idxs (b_obs batch) /\
      Forall2 (fun i x => ReplayBuffer.act_buf b !! Z.to_nat i = Some x) idxs (b_act batch) /\
      Forall2 (fun i x => ReplayBuffer.rew_buf b !! Z.to_nat i = Some x) idxs (b_rew batch) /\
      Forall2 (fun i x => ReplayBuffer.next_obs_buf b !! Z.to_nat i = Some x) idxs
              (b_next_obs batch) /\
      Forall2 (fun i x => ReplayBuffer.done_buf b !! Z.to_nat i = Some x) idxs
              (b_done batch)) /\
  (forall v : list Z,
      length v = Z.to_nat batch_size ->
      Forall (fun i => 0 <= i < ReplayBuffer.size b) v ->
      exists g0, randint 0 (ReplayBuffer.size b) batch_size g0
                 = OK (v, advance (Z.to_nat batch_size) g0)) /\
  (2 <= batch_size ->
   exists g0 idxs g1,
     randint 0 (ReplayBuffer.size b) batch_size g0 = OK (idxs, g1) /\ ~ NoDup idxs).
Proof.
  intros Hs Hsz Hn. split; [|split].
  - destruct (randint_ok 0 (ReplayBuffer.size b) batch_size g Hn ltac:(lia))
      as (idxs & Hr & Hlen & Hin).
    destruct (sample_ok C b batch_size g idxs _ Hs ltac:(lia) Hr Hin)
      as (batch & Hsample & Hslices).
    exists idxs, batch. split; [done|]. split; [done|]. split; [done|].
    split; [done|]. split; [|done].
    intros H1. eapply Forall_impl; [exact Hin|]. simpl. intros; lia.
  - intros v Hlen Hv. eexists. apply randint_reaches; done.
  - intros H2.
    exists (drawing 0 (replicate (Z.to_nat batch_size) 0)). eexists _, _.
    split.
    + apply randint_reaches; [lia|apply length_replicate|].
      apply Forall_replicate. lia.
    + destruct (Z.to_nat batch_size) as [|[|k]] eqn:E; [lia|lia|].
      simpl. rewrite NoDup_cons. intros [Hni _]. apply Hni. left.
Qed.

Lemma demo_buffer_shaped : shaped 3 demo_buffer.
Proof. constructor; reflexivity. Defined.

Lemma sample_draws_in_range_witness :
  shaped 3 demo_buffer /\ 1 <= ReplayBuffer.size demo_buffer <= Z.of_nat 3 /\ 1 <= 4 /\
  exists idxs batch,
    ReplayBuffer.sample demo_buffer 4 constant_generator
      = OK (batch, demo_buffer, advance (Z.to_nat 4) constant_generator) /\
    Forall (fun i => 0 <= i < ReplayBuffer.size demo_buffer) idxs /\
    Forall2 (fun i x => ReplayBuffer.act_buf demo_buffer !! Z.to_nat i = Some x)
            idxs (b_act batch).
Proof.
  assert (H2 : 1 <= ReplayBuffer.size demo_buffer <= Z.of_nat 3) by (simpl; lia).
  assert (H3 : 1 <= 4) by lia.
  split; [exact demo_buffer_shaped|]. split; [exact H2|]. split; [exact H3|].
  destruct (sample_draws_in_range 3 demo_buffer 4 constant_generator
              demo_buffer_shaped H2 H3)
    as [(idxs & batch & _ & Hsample & _ & Hin & _ & _ & Hact & _) _].
  exists idxs, batch. split; [exact Hsample|]. split; [exact Hin|exact Hact].
Defined.


(** C9.  Whatever sequence of [store] and [sample] calls a client makes on
    a new buffer, the buffer it ends with is the one the [store] calls alone
    produce; a call of [sample] returns the object unchanged (the five
    arrays, [idx] and [size]), for every batch size; and the five arrays
    keep the length they were allocated with. *)
Theorem only_store_mutates {Frame : Type} (zeros : Frame) (C : Z)
    (b0 : ReplayBuffer.t Frame) (g : RandomState) (cs : list (call Frame))
    (b : ReplayBuffer.t Frame) (g' : RandomState) :
  ReplayBuffer.init zeros C = OK b0 ->
  run_calls b0 g cs = OK (b, g') ->
  ReplayBuffer.store_all b0 (stored cs) = OK b /\
  (forall n g1 batch b1 g2,
      ReplayBuffer.sample b n g1 = OK (batch, b1, g2) -> b1 = b) /\
  shaped (Z.to_nat C) b0 /\ shaped (Z.to_nat C) b.
Proof.
  intros Hinit Hrun.
  assert (Hs0 : shaped (Z.to_nat C) b0).
  { unfold ReplayBuffer.init in Hinit. destruct (Z.ltb_spec C 0); [discriminate|].
    injection Hinit as <-. constructor; simpl; rewrite ?length_replicate; lia. }
  pose proof (run_calls_stores _ _ _ _ _ Hrun) as Hall.
  split; [done|]. split; [intros *; apply sample_frame|].
  split; [done|]. eapply store_all_shaped; eauto.
Qed.

Lemma only_store_mutates_witness :
  match ReplayBuffer.init 0 3 with
  | OK b0 =>
      match run_calls b0 constant_generator
              [CallStore (tagged (fun i => i) 1); CallSample 2;
               CallStore (tagged (fun i => i) 2); CallSample 5] with
      | OK (b, _) =>
          ReplayBuffer.store_all b0 [tagged (fun i => i) 1; tagged (fun i => i) 2] = OK b /\
          shaped (Z.to_nat 3) b
      | Raise _ => False
      end
  | Raise _ => False
  end.
Proof.
  destruct (ReplayBuffer.init 0 3) as [b0|e] eqn:Hinit; [|discriminate Hinit].
  destruct (run_calls b0 constant_generator _) as [[b g']|e] eqn:Hrun.
  - destruct (only_store_mutates 0 3 b0 constant_generator _ b g' Hinit Hrun)
      as (Hst & _ & _ & Hsh).
    split; [exact Hst|exact Hsh].
  - injection Hinit as <-. discriminate Hrun.
Defined.

(** C10, as stated, fails: asked for a batch of no element, [sample]
    returns an empty batch from an empty buffer, since no index is drawn. *)
Lemma sample_nothing_from_empty :
  exists b0,
    ReplayBuffer.init tt 5 = OK b0 /\ ReplayBuffer.size b0 = 0 /\
    ReplayBuffer.sample b0 0 constant_generator =
      OK ({| b_obs := []; b_act := []; b_rew := []; b_next_obs := []; b_done := [] |},
          b0, constant_generator).
Proof. eexists. split; [reflexivity|]. split; reflexivity. Qed.

(** C10, amended.  On an empty buffer [sample] raises [ValueError] for
    every [batch_size >= 1]; with [batch_size = 0] no index is drawn and
    an empty batch is returned, whatever the fill of the buffer, the empty
    buffer included; on a buffer with [size >= 1] it returns a batch of
    [batch_size] elements for every [batch_size >= 0], and leaves the
    buffer as it was. *)
Theorem sample_empty_or_total {Frame : Type} (C : nat) (b : ReplayBuffer.t Frame)
    (batch_size : Z) (g : RandomState) :
  shaped C b -> 0 <= ReplayBuffer.size b <= Z.of_nat C ->
  (ReplayBuffer.size b = 0 -> 1 <= batch_size ->
   ReplayBuffer.sample b batch_size g = Raise ValueError) /\
  (batch_size = 0 ->
   ReplayBuffer.sample b batch_size g =
     OK ({| b_obs := []; b_act := []; b_rew := []; b_next_obs := []; b_done := [] |},
         b, g)) /\
  (1 <= ReplayBuffer.size b -> 0 <= batch_size ->
   exists batch g', ReplayBuffer.sample b batch_size g = OK (batch, b, g') /\
                    length (b_obs batch) = Z.to_nat batch_size).
Proof.
  intros Hs Hsz. split; [|split].
  - intros H0 Hn. unfold ReplayBuffer.sample, randint. rewrite H0.
    destruct (Z.ltb_spec batch_size 0); [lia|].
    destruct (Z.eqb_spec batch_size 0); [lia|]. reflexivity.
  - intros ->. reflexivity.
  - intros H1 Hn. apply (sample_total C); [done|lia|done].
Qed.

Lemma empty_buffer_shaped : shaped 3 empty_buffer.
Proof. constructor; reflexivity. Defined.

Lemma sample_empty_or_total_witness :
  (shaped 3 empty_buffer /\ 0 <= ReplayBuffer.size empty_buffer <= Z.of_nat 3 /\
   ReplayBuffer.size empty_buffer = 0 /\ 1 <= 7 /\
   ReplayBuffer.sample empty_buffer 7 constant_generator = Raise ValueError /\
   ReplayBuffer.sample empty_buffer 0 constant_generator =
     OK ({| b_obs := []; b_act := []; b_rew := []; b_next_obs := []; b_done := [] |},
         empty_buffer, constant_generator)) /\
  (shaped 3 demo_buffer /\ 0 <= ReplayBuffer.size demo_buffer <= Z.of_nat 3 /\
   1 <= ReplayBuffer.size demo_buffer /\ 0 <= 7 /\
   exists batch g',
     ReplayBuffer.sample demo_buffer 7 constant_generator = OK (batch, demo_buffer, g') /\
     length (b_obs batch) = Z.to_nat 7).
Proof.
  assert (E2 : 0 <= ReplayBuffer.size empty_buffer <= Z.of_nat 3) by (simpl; lia).
  assert (E3 : ReplayBuffer.size empty_buffer = 0) by reflexivity.
  assert (E4 : 1 <= 7) by lia.
  assert (H2 : 0 <= ReplayBuffer.size demo_buffer <= Z.of_nat 3) by (simpl; lia).
  assert (H3 : 1 <= ReplayBuffer.size demo_buffer) by (simpl; lia).
  assert (H4 : 0 <= 7) by lia.
  split.
  - split; [exact empty_buffer_shaped|]. split; [exact E2|].
    split; [exact E3|]. split; [exact E4|]. split.
    + exact (proj1 (sample_empty_or_total 3 empty_buffer 7 constant_generator
                      empty_buffer_shaped E2) E3 E4).
    + exact (proj1 (proj2 (sample_empty_or_total 3 empty_buffer 0 constant_generator
                             empty_buffer_shaped E2)) eq_refl).
  - split; [exact demo_buffer_shaped|]. split; [exact H2|].
    split; [exact H3|]. split; [exact H4|].
    exact (proj2 (proj2 (sample_empty_or_total 3 demo_buffer 7 constant_generator
                           demo_buffer_shaped H2)) H3 H4).
Defined.

(** C7, as stated, fails: a capacity of zero is accepted by the
    constructor, and a batch larger than the fill of the buffer is sampled
    without an error. *)
Lemma invalid_hyperparameters_accepted :
  (exists b0, ReplayBuffer.init tt 0 = OK b0) /\
  (exists b0 b1 batch g',
      ReplayBuffer.init tt 5 = OK b0 /\
      ReplayBuffer.store b0 (tagged (fun _ => tt) 7) = OK b1 /\
      ReplayBuffer.size b1 = 1 /\
      ReplayBuffer.sample b1 32 constant_generator = OK (batch, b1, g') /\
      length (b_act batch) = 32%nat).
Proof.
  split; [eexists; reflexivity|].
  eexists _, _, _, _. split; [reflexivity|]. split; [vm_compute; reflexivity|].
  split; [reflexivity|]. split; vm_compute; reflexivity.
Qed.

(** C7, amended.  A negative capacity is refused by the constructor
    ([ValueError]); a capacity of zero is accepted, and every [store] on
    that buffer then raises [IndexError]; a batch size above the fill is
    no error, [sample] returns that many elements once [size >= 1]; a
    negative batch size raises [ValueError]. *)
Theorem hyperparameter_checks {Frame : Type} (zeros : Frame) :
  (forall C, C < 0 -> ReplayBuffer.init zeros C = Raise ValueError) /\
  (exists b0, ReplayBuffer.init zeros 0 = OK b0 /\
              forall tr, ReplayBuffer.store b0 tr = Raise IndexError) /\
  (forall (C : nat) (b : ReplayBuffer.t Frame) batch_size g,
      shaped C b -> 1 <= ReplayBuffer.size b <= Z.of_nat C ->
      ReplayBuffer.size b < batch_size ->
      exists batch g', ReplayBuffer.sample b batch_size g = OK (batch, b, g') /\
                       length (b_obs batch) = Z.to_nat batch_size) /\
  (forall (b : ReplayBuffer.t Frame) batch_size g,
      batch_size < 0 -> ReplayBuffer.sample b batch_size g = Raise ValueError).
Proof.
  split; [|split; [|split]].
  - intros C HC. unfold ReplayBuffer.init.
    destruct (Z.ltb_spec C 0); [reflexivity|lia].
  - eexists. split; [reflexivity|]. intros tr. reflexivity.
  - intros C b n g Hs Hsz Hn. apply (sample_total C); [done|done|lia].
  - intros b n g Hn. unfold ReplayBuffer.sample, randint.
    destruct (Z.ltb_spec n 0); [reflexivity|lia].
Qed.

Lemma hyperparameter_checks_witness :
  -1 < 0 /\ ReplayBuffer.init 0 (-1) = Raise ValueError /\
  shaped 3 demo_buffer /\ 1 <= ReplayBuffer.size demo_buffer <= Z.of_nat 3 /\
  ReplayBuffer.size demo_buffer < 32 /\
  exists batch g',
    ReplayBuffer.sample demo_buffer 32 constant_generator = OK (batch, demo_buffer, g') /\
    length (b_obs batch) = Z.to_nat 32.
Proof.
  assert (H1 : -1 < 0) by lia.
  assert (H2 : 1 <= ReplayBuffer.size demo_buffer <= Z.of_nat 3) by (simpl; lia).
  assert (H3 : ReplayBuffer.size demo_buffer < 32) by (simpl; lia).
  destruct (hyperparameter_checks 0) as (Hneg & _ & Hbig & _).
  split; [exact H1|]. split; [exact (Hneg (-1) H1)|].
  split; [exact demo_buffer_shaped|]. split; [exact H2|]. split; [exact H3|].
  exact (Hbig 3%nat demo_buffer 32 constant_generator demo_buffer_shaped H2 H3).
Defined.

(** ** The epsilon schedule *)

Lemma length_arange num : length (arange num) = Z.to_nat num.
Proof. unfold arange. rewrite length_map, length_seq. reflexivity. Qed.

Lemma lookup_arange num (i : nat) :
  (i < Z.to_nat num)%nat -> arange num !! i = Some (Z.of_nat i).
Proof.
  intros H. unfold arange.
  change (map Z.of_nat) with (fmap (M := list) Z.of_nat).
  rewrite list_lookup_fmap, lookup_seq_lt by done. reflexivity.
Qed.

Lemma linspace_regular (start stop : F64.t) (num : Z) :
  2 <= num ->
  F64.eqb (F64.div (F64.sub stop start) (F64.of_Z (num - 1))) F64.zero = false ->
  linspace start stop num =
    OK (<[Z.to_nat (num - 1) := stop]>
          (map (lin_elem start stop num) (arange num))).
Proof.
  intros Hn Hstep. unfold linspace.
  destruct (Z.ltb_spec num 0); [lia|].
  destruct (Z.ltb_spec 0 (num - 1)); [|lia].
  destruct (Z.ltb_spec 1 num); [|lia].
  rewrite Hstep. rewrite !map_map.
  unfold setitem. rewrite norm_index_last by (rewrite length_map, length_arange; lia).
  rewrite length_map, length_arange. rewrite Z2Nat.id by lia. reflexivity.
Qed.

Lemma lookup_linspace_regular (start stop : F64.t) (num : Z) (i : nat) :
  2 <= num ->
  (i < Z.to_nat num)%nat ->
  <[Z.to_nat (num - 1) := stop]> (map (lin_elem start stop num) (arange num)) !! i =
    Some (if Z.of_nat i <? num - 1 then lin_elem start stop num (Z.of_nat i) else stop).
Proof.
  intros Hn Hi.
  destruct (Z.ltb_spec (Z.of_nat i) (num - 1)).
  - rewrite list_lookup_insert_ne by lia.
    change (map (lin_elem start stop num)) with (fmap (M := list) (lin_elem start stop num)).
    rewrite list_lookup_fmap, lookup_arange by done. reflexivity.
  - replace (Z.to_nat (num - 1)) with i by lia.
    rewrite list_lookup_insert_eq; [done|].
    rewrite length_map, length_arange. lia.
Qed.

Lemma linspace_last (start stop : F64.t) (num : Z) (l : list F64.t) :
  2 <= num -> linspace start stop num = OK l ->
  length l = Z.to_nat num /\ last l = Some stop.
Proof.
  intros Hn. unfold linspace.
  destruct (Z.ltb_spec num 0); [lia|].
  destruct (Z.ltb_spec 1 num); [|lia].
  set (y := map _ _).
  assert (Hy : length y = Z.to_nat num).
  { unfold y. destruct (0 <? num - 1); [destruct (F64.eqb _ _)|];
      rewrite !length_map, length_arange; reflexivity. }
  clearbody y. unfold setitem.
  rewrite norm_index_last by lia. simpl. intros [= <-].
  rewrite length_insert. split; [done|].
  rewrite last_lookup, length_insert.
  replace (Z.to_nat (Z.of_nat (length y) - 1)) with (pred (length y)) by lia.
  apply list_lookup_insert_eq. lia.
Qed.

Section Schedule.
Import EpsilonDecaySchedule.

Lemma next_epsilon_ok (s : t) (x : F64.t) :
  0 <= step s ->
  schedule s !! Z.to_nat (Z.min (step s + 1) (Z.of_nat (length (schedule s)) - 1)) = Some x ->
  next_epsilon s = OK (x, {| step := step s + 1; schedule := schedule s |}).
Proof.
  intros Hs Hx. unfold next_epsilon. simpl.
  pose proof (lookup_lt_Some _ _ _ Hx) as Hlt.
  set (i := Z.min _ _) in *.
  replace i with (Z.of_nat (Z.to_nat i)) by lia.
  rewrite (getitem_in _ _ _ Hx). reflexivity.
Qed.

(** The counter is the number of calls made: nothing bounds it. *)
Lemma after_calls_ok (n : nat) (s : t) :
  0 <= step s -> schedule s <> [] ->
  after_calls n s = OK {| step := step s + Z.of_nat n; schedule := schedule s |}.
Proof.
  revert s. induction n as [|n IH]; intros s Hs Hne.
  - simpl. destruct s; simpl. do 2 f_equal. lia.
  - assert (Hlen : (0 < length (schedule s))%nat).
    { destruct (schedule s); [done|simpl; lia]. }
    destruct (lookup_lt_is_Some_2 (schedule s)
                (Z.to_nat (Z.min (step s + 1) (Z.of_nat (length (schedule s)) - 1)))
                ltac:(lia)) as [x Hx].
    cbn [after_calls]. rewrite (next_epsilon_ok s x Hs Hx). simpl.
    rewrite IH by (simpl; first [lia|done]). simpl. do 2 f_equal. lia.
Qed.

Lemma call_after_ok (k : nat) (s : t) (x : F64.t) :
  0 <= step s ->
  schedule s !! Z.to_nat (Z.min (step s + Z.of_nat k + 1)
                                (Z.of_nat (length (schedule s)) - 1)) = Some x ->
  call_after k s = OK x.
Proof.
  intros Hs Hx. unfold call_after.
  assert (Hne : schedule s <> []).
  { intros E. rewrite E in Hx. done. }
  rewrite after_calls_ok by done. simpl.
  rewrite (next_epsilon_ok _ x); simpl; [done|lia|done].
Qed.

End Schedule.


(** C8, as stated, fails: the counter itself is not clamped.  After three
    calls on a schedule of three values it is 3, above [decay_steps - 1]. *)
Lemma counter_exceeds_horizon :
  exists s0 s3,
    EpsilonDecaySchedule.init F64.one F64.tenth 3 = OK s0 /\
    EpsilonDecaySchedule.after_calls 3 s0 = OK s3 /\
    ~ (0 <= EpsilonDecaySchedule.step s3 <= 3 - 1).
Proof.
  eexists _, _. split; [vm_compute; reflexivity|].
  split; [vm_compute; reflexivity|]. simpl. lia.
Qed.

(** C8, amended.  On a schedule built with [steps >= 2], the counter after
    [n] calls is [n], whatever [n]; what is clamped is the index looked up:
    the call that follows [n] calls reads the schedule at
    [min (n + 1) (steps - 1)], which lies in [[1, steps - 1]], and from the
    [(steps - 1)]-th call on this is the last value, [end_]. *)
Theorem lookup_index_clamped (start end_ : F64.t) (steps : Z)
    (s0 : EpsilonDecaySchedule.t) (n : nat) :
  2 <= steps ->
  EpsilonDecaySchedule.init start end_ steps = OK s0 ->
  exists s' x,
    EpsilonDecaySchedule.after_calls n s0 = OK s' /\
    EpsilonDecaySchedule.step s' = Z.of_nat n /\
    EpsilonDecaySchedule.call_after n s0 = OK x /\
    let i := Z.min (Z.of_nat n + 1) (steps - 1) in
    1 <= i <= steps - 1 /\
    EpsilonDecaySchedule.schedule s0 !! Z.to_nat i = Some x /\
    (steps - 1 <= Z.of_nat n + 1 -> x = end_).
Proof.
  intros Hsteps. unfold EpsilonDecaySchedule.init.
  destruct (linspace start end_ steps) as [l|e] eqn:Hl; simpl; [|discriminate].
  intros [= <-]. destruct (linspace_last _ _ _ _ Hsteps Hl) as [Hlen Hlast].
  assert (Hne : l <> []) by (intros ->; simpl in Hlen; lia).
  set (i := Z.min (Z.of_nat n + 1) (steps - 1)).
  destruct (lookup_lt_is_Some_2 l (Z.to_nat i) ltac:(unfold i; lia)) as [x Hx].
  eexists _, x. split; [apply after_calls_ok; simpl; [lia|done]|].
  split; [simpl; lia|].
  split.
  { apply call_after_ok; simpl; [lia|]. rewrite <- Hx. f_equal. unfold i. lia. }
  split; [unfold i; lia|]. split; [done|].
  intros Hpast. rewrite last_lookup in Hlast.
  assert (Some x = Some end_) as [= ->]; [|done].
  rewrite <- Hx, <- Hlast. f_equal. unfold i. lia.
Qed.

Lemma lookup_index_clamped_witness :
  2 <= 3 /\
  exists s0 s' x,
    EpsilonDecaySchedule.init F64.one F64.tenth 3 = OK s0 /\
    EpsilonDecaySchedule.after_calls 5 s0 = OK s' /\
    EpsilonDecaySchedule.step s' = 5 /\
    EpsilonDecaySchedule.call_after 5 s0 = OK x /\
    x = F64.tenth.
Proof.
  assert (H1 : 2 <= 3) by lia.
  split; [exact H1|]. eexists.
  assert (Hinit : EpsilonDecaySchedule.init F64.one F64.tenth 3 = OK _)
    by (vm_compute; reflexivity).
  destruct (lookup_index_clamped F64.one F64.tenth 3 _ 5 H1 Hinit)
    as (s' & x & Hafter & Hstep & Hcall & _ & _ & Hlast).
  exists s', x. split; [exact Hinit|]. split; [exact Hafter|].
  split; [exact Hstep|]. split; [exact Hcall|]. apply Hlast. simpl. lia.
Defined.

(** *** The schedule of the default agent *)

Lemma of_Z_prim (k : Z) :
  0 <= k < 2 ^ 63 -> F64.of_Z k = Prim2SF (of_uint63 (Uint63.of_Z k)).
Proof.
  intros Hk. rewrite of_uint63_spec. unfold F64.of_Z. f_equal.
  rewrite Uint63.of_Z_spec. symmetry. apply Z.mod_small. exact Hk.
Qed.

Lemma default_elem_spec (k : Z) :
  0 <= k < 2 ^ 63 ->
  lin_elem F64.one F64.tenth default_steps k = Prim2SF (default_elem k).
Proof.
  intros Hk. unfold lin_elem, default_elem.
  rewrite add_spec, mul_spec.
  rewrite <- of_Z_prim by done.
  reflexivity.
Qed.

Lemma default_decreasing_prim :
  all_below (fun k => PrimFloat.leb (default_elem (k + 1)) (default_elem k))
            (Z.to_N (default_steps - 2)) = true.
Proof. vm_cast_no_check (eq_refl true). Qed.

Lemma default_decreasing (k : Z) :
  0 <= k < default_steps - 2 ->
  F64.leb (lin_elem F64.one F64.tenth default_steps (k + 1))
          (lin_elem F64.one F64.tenth default_steps k) = true.
Proof.
  intros Hk. unfold default_steps in Hk.
  rewrite !default_elem_spec by lia.
  unfold F64.leb. rewrite <- leb_spec.
  apply (all_below_spec _ _ default_decreasing_prim).
  unfold default_steps. lia.
Qed.

Lemma default_at_decreasing (i : Z) :
  0 <= i -> F64.leb (default_at (i + 1)) (default_at i) = true.
Proof.
  intros Hi. unfold default_at.
  destruct (Z.ltb_spec (i + 1) (default_steps - 1)) as [H1|H1];
    destruct (Z.ltb_spec i (default_steps - 1)) as [H2|H2]; try lia.
  - apply default_decreasing. lia.
  - replace i with (default_steps - 2) by lia. vm_compute. reflexivity.
  - reflexivity.
Qed.

Lemma default_init :
  EpsilonDecaySchedule.init F64.one F64.tenth default_steps = OK default_schedule.
Proof.
  unfold EpsilonDecaySchedule.init.
  rewrite linspace_regular; [reflexivity|unfold default_steps; lia|].
  vm_compute. reflexivity.
Qed.

Lemma default_call_after (k : nat) :
  EpsilonDecaySchedule.call_after k default_schedule =
    OK (default_at (Z.min (Z.of_nat k + 1) (default_steps - 1))).
Proof.
  apply call_after_ok; unfold default_schedule;
    cbn [EpsilonDecaySchedule.step EpsilonDecaySchedule.schedule]; [lia|].
  rewrite length_insert, length_map, length_arange.
  rewrite Z2Nat.id by (unfold default_steps; lia).
  rewrite lookup_linspace_regular by (unfold default_steps; lia).
  rewrite Z2Nat.id by (unfold default_steps; lia).
  reflexivity.
Qed.

(** C3.  For the schedule built with [(1.0, 0.1, 1000000)]: the first call
    of [next_epsilon] returns the element of index 1 of the schedule, a
    value below [1.0] and above [0.1]; every call from the 1000000-th on
    returns [0.1] itself; and each call returns at most what the call before
    it returned. *)
Theorem default_schedule_calls :
  exists s0,
    EpsilonDecaySchedule.init F64.one F64.tenth 1000000 = OK s0 /\
    (exists v,
        EpsilonDecaySchedule.call_after 0 s0 = OK v /\
        EpsilonDecaySchedule.schedule s0 !! 1%nat = Some v /\
        F64.ltb v F64.one = true /\ F64.ltb F64.tenth v = true) /\
    (forall k : nat,
        1000000 <= Z.of_nat k + 1 ->
        EpsilonDecaySchedule.call_after k s0 = OK F64.tenth) /\
    (forall k : nat,
        exists x y,
          EpsilonDecaySchedule.call_after k s0 = OK x /\
          EpsilonDecaySchedule.call_after (S k) s0 = OK y /\
          F64.leb y x = true).
Proof.
  exists default_schedule. split; [exact default_init|].
  pose proof default_call_after as Hc.
  split; [|split].
  - exists (default_at 1). split; [apply Hc|]. split.
    + unfold default_schedule. cbn [EpsilonDecaySchedule.schedule].
      rewrite lookup_linspace_regular; [reflexivity|unfold default_steps; lia|].
      unfold default_steps. lia.
    + split; vm_compute; reflexivity.
  - intros k Hk. rewrite Hc. f_equal. unfold default_at.
    destruct (Z.ltb_spec (Z.min (Z.of_nat k + 1) (default_steps - 1)) (default_steps - 1));
      [unfold default_steps in *; lia|reflexivity].
  - intros k. eexists _, _. split; [apply Hc|]. split; [apply Hc|].
    destruct (Z.le_gt_cases (default_steps - 1) (Z.of_nat k + 1)) as [H|H].
    + rewrite !Z.min_r by lia. vm_compute. reflexivity.
    + rewrite Z.min_l by lia. rewrite Z.min_l by lia.
      replace (Z.of_nat (S k) + 1) with (Z.of_nat k + 1 + 1) by lia.
      apply default_at_decreasing. lia.
Qed.

Lemma default_schedule_calls_witness :
  1000000 <= Z.of_nat (Z.to_nat 1000000) + 1 /\
  exists s0,
    EpsilonDecaySchedule.init F64.one F64.tenth 1000000 = OK s0 /\
    EpsilonDecaySchedule.call_after (Z.to_nat 1000000) s0 = OK F64.tenth.
Proof.
  assert (H1 : 1000000 <= Z.of_nat (Z.to_nat 1000000) + 1) by lia.
  split; [exact H1|].
  destruct default_schedule_calls as (s0 & Hinit & _ & Hlate & _).
  exists s0. split; [exact Hinit|]. exact (Hlate _ H1).
Defined.

(** ** The bootstrapped target *)

(** Adding a zero changes nothing but a negative zero. *)
Lemma add_zero_r (x : F32.t) (s : bool) :
  x <> S754_zero true -> F32.add x (S754_zero s) = x.
Proof.
  intros Hx. destruct x as [[]| | |]; destruct s; try reflexivity. done.
Qed.

Lemma mul_zero_r (x : F32.t) :
  F32.is_finite x = true -> exists s, F32.mul x F32.zero = S754_zero s.
Proof. destruct x as [[]|[]| |[]]; simpl; intros H; try discriminate; eauto. Qed.

Lemma int16_not_neg_zero_all :
  all_below (fun k => not_neg_zero (F32.of_Z (k - 2 ^ 15))) (Z.to_N (2 ^ 16)) = true.
Proof. vm_cast_no_check (eq_refl true). Qed.

Lemma int16_not_neg_zero (r : Z) :
  - 2 ^ 15 <= r < 2 ^ 15 -> F32.of_Z r <> S754_zero true.
Proof.
  intros Hr E.
  pose proof (all_below_spec _ _ int16_not_neg_zero_all (r + 2 ^ 15) ltac:(lia)) as H.
  cbv beta in H. replace (r + 2 ^ 15 - 2 ^ 15) with r in H by lia.
  rewrite E in H. discriminate.
Qed.

Lemma not_done_float (d : bool) :
  F32.of_bool (negb d) = F32.sub F32.one (F32.of_bool d).
Proof. destruct d; vm_compute; reflexivity. Qed.

(** C2, as stated, fails: when the greatest next value is infinite, the
    target of a terminal transition is a NaN, not the reward. *)
Lemma terminal_target_nan :
  td_target f64_099 1 (S754_infinity false) true = S754_nan /\
  td_target f64_099 1 (S754_infinity false) true <> F32.of_Z 1.
Proof. split; [vm_compute; reflexivity | vm_compute; discriminate]. Qed.

Lemma mul_zero_not_finite (x : F32.t) :
  F32.is_finite x = false -> F32.mul x F32.zero = S754_nan.
Proof. destruct x as [[]|[]| |[]]; simpl; intros H; try discriminate; reflexivity. Qed.

Lemma add_nan_r (x : F32.t) : F32.add x S754_nan = S754_nan.
Proof. destruct x as [[]|[]| |[]]; reflexivity. Qed.

(** C2, amended.  The target is [reward + gamma * max_next * (1 - done)],
    computed in binary32.  For a terminal transition it is the reward
    exactly, whenever [gamma * max_next] is finite (neither an infinity nor
    a NaN); when that product is an infinity or a NaN, the target of a
    terminal transition is a NaN, whatever the reward.  For [gamma = 0.99],
    [reward = 1], [max_next = 2.0] and a transition that is not terminal it
    is [12499026 * 2^-22], the binary32 number nearest to 2.98 (within half
    a unit in the last place). *)
Theorem td_target_spec :
  (forall gamma r m d,
      td_target gamma r m d =
        F32.add (F32.of_Z r)
                (F32.mul (F32.mul (F32.of_f64 gamma) m)
                         (F32.sub F32.one (F32.of_bool d)))) /\
  (forall gamma r m,
      - 2 ^ 15 <= r < 2 ^ 15 ->
      F32.is_finite (F32.mul (F32.of_f64 gamma) m) = true ->
      td_target gamma r m true = F32.of_Z r) /\
  (forall gamma r m,
      F32.is_finite (F32.mul (F32.of_f64 gamma) m) = false ->
      td_target gamma r m true = S754_nan) /\
  td_target f64_099 1 f32_two false = S754_finite false 12499026 (-22) /\
  2 * Z.abs (12499026 * 100 - 298 * 2 ^ 22) <= 100.
Proof.
  split; [|split; [|split; [|split]]].
  - intros gamma r m d. unfold td_target. rewrite not_done_float. reflexivity.
  - intros gamma r m Hr Hfin. unfold td_target. simpl negb.
    destruct (mul_zero_r _ Hfin) as [s Hs].
    change (F32.of_bool false) with F32.zero. rewrite Hs.
    apply add_zero_r. apply int16_not_neg_zero. exact Hr.
  - intros gamma r m Hinf. unfold td_target. simpl negb.
    change (F32.of_bool false) with F32.zero.
    rewrite (mul_zero_not_finite _ Hinf). apply add_nan_r.
  - vm_compute. reflexivity.
  - vm_compute. discriminate.
Qed.

Lemma td_target_spec_witness :
  - 2 ^ 15 <= 1 < 2 ^ 15 /\
  F32.is_finite (F32.mul (F32.of_f64 f64_099) f32_two) = true /\
  td_target f64_099 1 f32_two true = F32.of_Z 1 /\
  F32.is_finite (F32.mul (F32.of_f64 f64_099) (S754_infinity true)) = false /\
  td_target f64_099 1 (S754_infinity true) true = S754_nan.
Proof.
  assert (H1 : - 2 ^ 15 <= 1 < 2 ^ 15) by lia.
  assert (H2 : F32.is_finite (F32.mul (F32.of_f64 f64_099) f32_two) = true)
    by (vm_compute; reflexivity).
  assert (H3 : F32.is_finite (F32.mul (F32.of_f64 f64_099) (S754_infinity true)) = false)
    by (vm_compute; reflexivity).
  split; [exact H1|]. split; [exact H2|].
  split; [exact (proj1 (proj2 td_target_spec) f64_099 1 f32_two H1 H2)|].
  split; [exact H3|].
  exact (proj1 (proj2 (proj2 td_target_spec)) f64_099 1 (S754_infinity true) H3).
Defined.

(** ** Greedy action selection *)

Ltac cmp_cases :=
  repeat match goal with
  | |- context [Z.compare ?a ?b] => destruct (Z.compare_spec a b); subst
  | H : context [Z.compare ?a ?b] |- _ => destruct (Z.compare_spec a b); subst
  | |- context [Pos.compare_cont Eq ?a ?b] =>
      change (Pos.compare_cont Eq a b) with (Pos.compare a b);
      destruct (Pos.compare_spec a b); subst
  | H : context [Pos.compare_cont Eq ?a ?b] |- _ =>
      change (Pos.compare_cont Eq a b) with (Pos.compare a b) in H;
      destruct (Pos.compare_spec a b); subst
  end;
  simpl in *; try congruence; try lia.

(** [SFcompare] orders the numbers: what is not above [b], with [b] below
    [c], is below [c]. *)
Lemma compare_le_lt (a b c : spec_float) :
  (SFcompare b a = Some Eq \/ SFcompare b a = Some Gt) ->
  SFcompare b c = Some Lt ->
  SFcompare a c = Some Lt /\ SFcompare c a = Some Gt.
Proof.
  destruct a as [sa|sa| |sa ma ea], b as [sb|sb| |sb mb eb], c as [sc|sc| |sc mc ec];
    simpl; intros [H1|H1] H2; try discriminate;
    repeat match goal with s : bool |- _ => destruct s end;
    simpl in *; try discriminate; try (split; reflexivity);
    split; f_equal; cmp_cases.
Qed.

Lemma above_trans (q best x : F32.t) :
  above q best = false -> above x best = true ->
  above x q = true /\ above q x = false.
Proof.
  unfold above, F32.ltb, SFltb, F32.is_nan.
  destruct q as [sq|sq| |sq mq eq], best as [sb|sb| |sb mb eb], x as [sx|sx| |sx mx ex];
    simpl; intros H1 H2; try discriminate; try (split; reflexivity);
    repeat match goal with s : bool |- _ => destruct s end;
    simpl in *; try discriminate; try (split; reflexivity);
    split; cmp_cases.
Qed.

Lemma above_irrefl (x : F32.t) : above x x = false.
Proof.
  unfold above, F32.ltb, SFltb, F32.is_nan.
  destruct x as [s|s| |s m e]; simpl; try reflexivity; destruct s; try reflexivity;
    rewrite Z.compare_refl; change (Pos.compare_cont Eq m m) with (Pos.compare m m);
    rewrite Pos.compare_refl; reflexivity.
Qed.

Lemma greater_or_nan_later (x best : F32.t) (i ibest : Z) :
  ibest < i -> greater_or_nan x best i ibest = above x best.
Proof.
  intros Hi. unfold greater_or_nan, above, F32.eqb, SFeqb, F32.ltb, SFltb, F32.is_nan.
  destruct (Z.ltb_spec i ibest); [lia|].
  destruct x as [sx|sx| |sx mx ex], best as [sb|sb| |sb mb eb];
    simpl; try reflexivity;
    repeat match goal with s : bool |- _ => destruct s end;
    simpl in *; try reflexivity; cmp_cases.
Qed.

Lemma argmax_from_spec (l pre : list F32.t) (best : F32.t) (ibest : Z) :
  0 <= ibest ->
  pre !! Z.to_nat ibest = Some best ->
  (forall (j : nat) (x : F32.t), pre !! j = Some x ->
     above x best = false /\ (Z.of_nat j < ibest -> above best x = true)) ->
  is_first_max (pre ++ l) (argmax_from best ibest (Z.of_nat (length pre)) l).
Proof.
  revert pre best ibest. induction l as [|x l IH]; intros pre best ibest Hib Hbest Hinv.
  - simpl. rewrite app_nil_r. exists best. auto.
  - pose proof (lookup_lt_Some _ _ _ Hbest) as Hlt.
    cbn [argmax_from]. rewrite greater_or_nan_later by lia.
    replace (pre ++ x :: l) with ((pre ++ [x]) ++ l) by (rewrite <- app_assoc; reflexivity).
    replace (Z.of_nat (length pre) + 1) with (Z.of_nat (length (pre ++ [x])))
      by (rewrite length_app; simpl; lia).
    destruct (above x best) eqn:Hab.
    + apply IH; [lia| |].
      * rewrite Nat2Z.id. rewrite lookup_app_r by lia.
        rewrite Nat.sub_diag. reflexivity.
      * intros j x0 Hj. destruct (decide (j < length pre)%nat) as [Hjl|Hjl].
        -- rewrite lookup_app_l in Hj by done.
           destruct (Hinv j x0 Hj) as [H1 _].
           destruct (above_trans x0 best x H1 Hab) as [H3 H4]. auto.
        -- rewrite lookup_app_r in Hj by lia.
           destruct (j - length pre)%nat eqn:E; simpl in Hj; [|done].
           injection Hj as <-. split; [apply above_irrefl|lia].
    + apply IH; [lia| |].
      * rewrite lookup_app_l by lia. done.
      * intros j x0 Hj. destruct (decide (j < length pre)%nat) as [Hjl|Hjl].
        -- rewrite lookup_app_l in Hj by done. auto.
        -- rewrite lookup_app_r in Hj by lia.
           destruct (j - length pre)%nat eqn:E; simpl in Hj; [|done].
           injection Hj as <-. split; [done|lia].
Qed.

Lemma argmax_spec (q : list F32.t) :
  q <> [] -> exists a, argmax q = OK a /\ is_first_max q a.
Proof.
  destruct q as [|x l]; [done|]. intros _. eexists. split; [reflexivity|].
  apply (argmax_from_spec l [x] x 0); [lia|reflexivity|].
  intros [|j] x0 Hj; simpl in Hj; [|done].
  injection Hj as <-. split; [apply above_irrefl|lia].
Qed.

Lemma binary_round_aux_sign (prec emax : Z) (mx ex : Z) (lx : location) :
  SFltb (binary_round_aux prec emax false mx ex lx) (S754_zero false) = false.
Proof.
  unfold binary_round_aux.
  destruct (shr_fexp prec emax mx ex lx) as [mrs' e'].
  destruct (shr_fexp prec emax _ e' loc_Exact) as [mrs'' e''].
  destruct (shr_m mrs''); [reflexivity| |reflexivity].
  destruct (e'' <=? emax - prec); reflexivity.
Qed.

Lemma random_not_negative (g : RandomState) :
  F64.ltb (random g).1 F64.zero = false.
Proof.
  unfold random, F64.ltb, F64.zero. cbn [fst].
  pose proof (Z.mod_pos_bound (raw g (cursor g)) (2 ^ 53) ltac:(lia)) as Hb.
  destruct (raw g (cursor g) `mod` 2 ^ 53) as [|p|p] eqn:E; [reflexivity| |lia].
  unfold binary_normalize, binary_round.
  destruct (shl_align _ _ _) as [mz ez]. apply binary_round_aux_sign.
Qed.

(** When no value is a NaN, torch's order is the order of the numbers. *)
Lemma above_number (a b : F32.t) :
  F32.is_nan a = false -> F32.is_nan b = false ->
  above a b = F32.ltb b a /\ (above a b = false -> F32.leb a b = true).
Proof.
  unfold above. intros Ha Hb. rewrite Ha. split; [reflexivity|].
  unfold F32.ltb, SFltb, F32.leb, SFleb, F32.is_nan in *.
  destruct a as [sa|sa| |sa ma ea], b as [sb|sb| |sb mb eb];
    simpl; try discriminate; try reflexivity;
    repeat match goal with s : bool |- _ => destruct s end;
    simpl in *; try discriminate; try reflexivity; cmp_cases.
Qed.

(** C5.  With [epsilon = 0] (and an approximator with at least one
    action), [get_action] returns the argmax of the predicted values:
    the position of the greatest one, the first among equals (a NaN
    counting as greatest, as torch has it); the branch that explores is
    not taken, so the agent and its environment are returned unchanged, and
    the action is the same for every state of the random generator.  When
    no predicted value is a NaN, every value is at most the chosen one and
    every earlier value is strictly less. *)
Theorem greedy_is_argmax {Frame Params Env : Type}
    (forward : Params -> Frame -> list F32.t)
    (action_space_sample : Env -> Z * Env)
    (self : DQNAgent.t (Frame := Frame) (Params := Params) (Env := Env))
    (obs : Frame) (g : RandomState) :
  DQNAgent.epsilon self = F64.zero ->
  forward (DQNAgent.Q self) obs <> [] ->
  exists a,
    DQNAgent.get_action forward action_space_sample self obs g
      = OK (a, self, advance 1 g) /\
    argmax (forward (DQNAgent.Q self) obs) = OK a /\
    is_first_max (forward (DQNAgent.Q self) obs) a /\
    (forall g', DQNAgent.get_action forward action_space_sample self obs g'
                = OK (a, self, advance 1 g')) /\
    (Forall (fun x => F32.is_nan x = false) (forward (DQNAgent.Q self) obs) ->
     exists y, forward (DQNAgent.Q self) obs !! Z.to_nat a = Some y /\
       forall (j : nat) (x : F32.t),
         forward (DQNAgent.Q self) obs !! j = Some x ->
         F32.leb x y = true /\ (Z.of_nat j < a -> F32.ltb x y = true)).
Proof.
  intros Heps Hq. destruct (argmax_spec _ Hq) as (a & Ha & Hmax).
  assert (Hget : forall g0, DQNAgent.get_action forward action_space_sample self obs g0
                            = OK (a, self, advance 1 g0)).
  { intros g0. unfold DQNAgent.get_action.
    pose proof (random_not_negative g0) as Hr.
    destruct (random g0) as [u g1] eqn:Hu.
    assert (g1 = advance 1 g0) as -> by (unfold random in Hu; congruence).
    cbn [fst] in Hr. rewrite Heps, Hr, Ha. reflexivity. }
  exists a. split; [apply Hget|]. split; [done|]. split; [done|].
  split; [done|]. intros Hnan.
  destruct Hmax as (y & Ha0 & Hy & Hall). exists y. split; [done|].
  rewrite Forall_forall in Hnan.
  assert (Hny : F32.is_nan y = false).
  { apply Hnan. eapply list_elem_of_lookup_2; eauto. }
  intros j x Hx.
  assert (Hnx : F32.is_nan x = false).
  { apply Hnan. eapply list_elem_of_lookup_2; eauto. }
  destruct (Hall j x Hx) as [H1 H2].
  split.
  - apply (above_number x y Hnx Hny). exact H1.
  - intros Hj. rewrite <- (proj1 (above_number y x Hny Hnx)). auto.
Qed.

Lemma greedy_is_argmax_witness :
  DQNAgent.epsilon (demo_agent F64.zero) = F64.zero /\
  demo_forward (DQNAgent.Q (demo_agent F64.zero)) 7 <> [] /\
  DQNAgent.get_action demo_forward demo_action_space_sample (demo_agent F64.zero) 7
    constant_generator = OK (1, demo_agent F64.zero, advance 1 constant_generator).
Proof.
  assert (H1 : DQNAgent.epsilon (demo_agent F64.zero) = F64.zero) by reflexivity.
  assert (H2 : demo_forward (DQNAgent.Q (demo_agent F64.zero)) 7 <> []) by discriminate.
  split; [exact H1|]. split; [exact H2|].
  destruct (greedy_is_argmax demo_forward demo_action_space_sample
              (demo_agent F64.zero) 7 constant_generator H1 H2)
    as (a & Hget & Harg & _).
  assert (a = 1) as -> by (vm_compute in Harg; congruence).
  exact Hget.
Defined.

(** ** The training loop *)

Lemma gated_app (t1 t2 : list event) :
  gated t1 = true -> gated t2 = true -> gated (t1 ++ t2) = true.
Proof.
  remember (length t1) as n eqn:Hn. revert t1 Hn.
  induction n as [n IH] using lt_wf_ind. intros t1 -> H1 H2.
  destruct t1 as [|e t1]; [exact H2|].
  destruct e; simpl in *;
    try (apply (IH (length t1)); [lia|reflexivity|assumption|assumption]);
    try discriminate.
  destruct (min_fill <=? size_after).
  - destruct t1 as [|[] t1]; try discriminate. simpl.
    apply (IH (length t1)); [simpl; lia|reflexivity|assumption|assumption].
  - apply (IH (length t1)); [lia|reflexivity|assumption|assumption].
Qed.

Lemma gated_block (action s : Z) :
  gated (EnvStep action :: Store s :: (if min_fill <=? s then [Replay] else [])) = true.
Proof. simpl. destruct (min_fill <=? s); reflexivity. Qed.

Section Training.
Context {Frame Params Env : Type}.
Variable forward : Params -> Frame -> list F32.t.
Variable optimise : Params -> list Frame -> list Z -> list F32.t -> Params.
Variable env_reset : Env -> Frame * Env.
Variable env_step : Env -> Z -> (Frame * Z * bool * bool) * Env.
Variable action_space_sample : Env -> Z * Env.

Local Abbreviation agent_t :=
  (DQNAgent.t (Frame := Frame) (Params := Params) (Env := Env)).
Local Abbreviation state :=
  (DQNAgent.run_state (Frame := Frame) (Params := Params) (Env := Env)).
Local Abbreviation loop_body :=
  (DQNAgent.loop_body forward optimise env_step action_space_sample).
Local Abbreviation step :=
  (DQNAgent.step forward optimise env_reset env_step action_space_sample).
Local Abbreviation run :=
  (DQNAgent.run forward optimise env_reset env_step action_space_sample).
Local Abbreviation learn :=
  (DQNAgent.learn forward optimise env_reset env_step action_space_sample).

Lemma replay_memory (self self' : agent_t) (g g' : RandomState) :
  DQNAgent.replay forward optimise self g = OK (self', g') ->
  DQNAgent.memory self' = DQNAgent.memory self.
Proof.
  unfold DQNAgent.replay.
  destruct (ReplayBuffer.sample _ _ _) as [[[batch mem] g1]|e] eqn:Hs; simpl; [|discriminate].
  apply sample_frame in Hs as ->.
  destruct (mapM (fun oa => gather _ _) _); simpl; [|discriminate].
  destruct (mapM (fun o => max_value _) _); simpl; [|discriminate].
  intros [= <- _]. destruct self; reflexivity.
Qed.

(** One pass of the loop stores, then learns exactly when the buffer
    holds [min_fill] transitions. *)
Lemma loop_body_trace (episode : Z) (obs : Frame) (r : Z) (st : state) c' (st' : state) :
  loop_body episode obs r st = OK (c', st') ->
  exists action,
    let s := ReplayBuffer.size (DQNAgent.memory (DQNAgent.agent st')) in
    DQNAgent.trace st' =
      DQNAgent.trace st ++
        EnvStep action :: Store s :: (if min_fill <=? s then [Replay] else []).
Proof.
  unfold DQNAgent.loop_body.
  destruct (DQNAgent.get_action _ _ _ _ _) as [[[action self1] g1]|e]; simpl; [|discriminate].
  destruct (env_step _ _) as [[[[next_obs reward] terminated] truncated] e1].
  destruct (ReplayBuffer.store _ _) as [mem|e]; simpl; [|discriminate].
  destruct (min_fill <=? ReplayBuffer.size mem) eqn:Hfill.
  - destruct (DQNAgent.replay _ _ _ _) as [[self2 g2]|e] eqn:Hrep; simpl; [|discriminate].
    apply replay_memory in Hrep. simpl in Hrep.
    destruct (EpsilonDecaySchedule.next_epsilon _) as [[eps sched]|e]; simpl; [|discriminate].
    intros [= _ <-]. exists action. simpl. rewrite Hrep, Hfill.
    rewrite <- app_assoc. reflexivity.
  - destruct (EpsilonDecaySchedule.next_epsilon _) as [[eps sched]|e]; simpl; [|discriminate].
    intros [= _ <-]. exists action. simpl. rewrite Hfill. reflexivity.
Qed.

Lemma step_gated (episodes : Z) c (st : state) c' (st' : state) :
  step episodes c st = OK (c', st') ->
  gated (DQNAgent.trace st) = true -> gated (DQNAgent.trace st') = true.
Proof.
  destruct c as [episode|episode obs r|episode r|]; simpl.
  - destruct (episode <=? episodes).
    + destruct (env_reset _) as [obs e]. intros [= _ <-] H. simpl.
      apply gated_app; done.
    + intros [= _ <-] H. simpl. apply gated_app; done.
  - intros Hb H. destruct (loop_body_trace _ _ _ _ _ _ Hb) as [action Htr].
    simpl in Htr. rewrite Htr. apply gated_app; [done|apply gated_block].
  - intros [= _ <-] H. simpl. destruct (_ =? 0); [apply gated_app|]; done.
  - intros [= _ <-]. done.
Qed.

Lemma run_gated (fuel : nat) (episodes : Z) c (st : state) c' (st' : state) :
  run fuel episodes c st = OK (c', st') ->
  gated (DQNAgent.trace st) = true -> gated (DQNAgent.trace st') = true.
Proof.
  revert c st. induction fuel as [|fuel IH]; intros c st; simpl.
  - intros [= _ <-]. done.
  - destruct (DQNAgent.step _ _ _ _ _ _ _ _) as [[c1 st1]|e] eqn:Hst; simpl; [|discriminate].
    intros Hrun H. eapply IH; [exact Hrun|]. eapply step_gated; eauto.
Qed.

(** C6.  One pass through the body of the training loop steps the
    environment, stores the transition, and then calls [replay] exactly
    once if the buffer now holds at least 50000 transitions, and not at all
    if it holds fewer.  Hence in every prefix of a run of [learn], a
    [replay] comes only directly after a [store] that left [size >= 50000],
    and every such [store] is followed by exactly one. *)
Theorem learning_is_gated :
  (forall episode obs r (st : state) c' (st' : state),
      loop_body episode obs r st = OK (c', st') ->
      exists action,
        let s := ReplayBuffer.size (DQNAgent.memory (DQNAgent.agent st')) in
        DQNAgent.trace st' =
          DQNAgent.trace st ++
            EnvStep action :: Store s :: (if min_fill <=? s then [Replay] else [])) /\
  (forall fuel (self : agent_t) episodes g c (st : state),
      learn fuel self episodes g = OK (c, st) ->
      gated (DQNAgent.trace st) = true).
Proof.
  split; [apply loop_body_trace|].
  intros fuel self episodes g c st. unfold DQNAgent.learn.
  destruct (EpsilonDecaySchedule.init _ _ _) as [sched|e]; simpl; [|discriminate].
  intros Hrun. eapply run_gated; [exact Hrun|reflexivity].
Qed.

End Training.

Lemma demo_learn_trace :
  trace_of demo_learn =
    OK [EnvReset; EnvStep 0; Store 49999; EnvStep 0; Store 50000; Replay; Save false].
Proof. vm_compute. reflexivity. Qed.

Lemma learning_is_gated_witness :
  match demo_learn with
  | OK (_, st) =>
      DQNAgent.trace st =
        [EnvReset; EnvStep 0; Store 49999; EnvStep 0; Store 50000; Replay; Save false] /\
      gated (DQNAgent.trace st) = true
  | Raise _ => False
  end.
Proof.
  pose proof demo_learn_trace as Htr.
  destruct demo_learn as [[c st]|e] eqn:Hrun.
  - split.
    + simpl in Htr. congruence.
    + exact (proj2 (learning_is_gated demo_forward demo_optimise demo_env_reset
                      demo_env_step demo_action_space_sample)
                   _ _ _ _ c st Hrun).
  - discriminate Htr.
Defined.

(** * Further properties *)

(** ** The buffer *)

(** X1.  The write cursor stays within the arrays.  After any list
    [ts] of transitions within the arrays' element types went into a new
    buffer of capacity [C >= 1]: every [store] succeeded, the cursor [idx]
    is [length ts mod C] and lies in [[0, C)], [size] lies in [[0, C]], and
    the five arrays and [memory_size] are as allocated. *)
Theorem store_all_cursor {Frame : Type} (zeros : Frame) (C : Z)
    (ts : list (Transition Frame)) :
  1 <= C ->
  Forall (fun tr => fits_dtypes tr = true) ts ->
  exists b0 b,
    ReplayBuffer.init zeros C = OK b0 /\
    ReplayBuffer.store_all b0 ts = OK b /\
    ReplayBuffer.idx b = Z.of_nat (length ts) `mod` C /\
    0 <= ReplayBuffer.idx b < C /\
    0 <= ReplayBuffer.size b <= C /\
    ReplayBuffer.memory_size b = C /\
    shaped (Z.to_nat C) b.
Proof.
  intros HC _.
  destruct (ring_store_all zeros (Z.to_nat C) ts ltac:(lia))
    as (b0 & b & Hinit & Hall & Hr).
  rewrite Z2Nat.id in Hinit by lia.
  exists b0, b. split; [done|]. split; [done|].
  assert (Hidx : ReplayBuffer.idx b = Z.of_nat (length ts) `mod` C).
  { rewrite (ring_idx _ _ _ Hr), Nat2Z.inj_mod, Z2Nat.id by lia. reflexivity. }
  split; [done|]. split.
  { rewrite Hidx. apply Z.mod_pos_bound. lia. }
  split; [rewrite (ring_size _ _ _ Hr); lia|].
  split; [|apply (ring_shaped _ _ _ Hr)].
  rewrite (sh_mem _ _ (ring_shaped _ _ _ Hr)). lia.
Qed.

(** X2.  One [store] writes one slot.  On a buffer with its arrays as
    allocated and its cursor within them, for a transition within the
    arrays' element types: the call succeeds; the slot at the old cursor
    holds the transition; every other slot is as before; the cursor moves
    on by one, modulo the capacity; [size] grows by one up to the
    capacity. *)
Theorem store_touches_one_slot {Frame : Type} (C : nat) (b : ReplayBuffer.t Frame)
    (tr : Transition Frame) :
  shaped C b -> 0 <= ReplayBuffer.idx b < Z.of_nat C -> fits_dtypes tr = true ->
  exists b',
    ReplayBuffer.store b tr = OK b' /\
    shaped C b' /\
    ReplayBuffer.entry b' (Z.to_nat (ReplayBuffer.idx b)) = Some tr /\
    (forall j : nat, j <> Z.to_nat (ReplayBuffer.idx b) ->
       ReplayBuffer.entry b' j = ReplayBuffer.entry b j) /\
    ReplayBuffer.idx b' = (ReplayBuffer.idx b + 1) `mod` Z.of_nat C /\
    ReplayBuffer.size b' = Z.min (ReplayBuffer.size b + 1) (Z.of_nat C).
Proof.
  intros Hs Hi Hfit.
  assert (Hi' : ReplayBuffer.idx b = Z.of_nat (Z.to_nat (ReplayBuffer.idx b))) by lia.
  assert (Hlt : (Z.to_nat (ReplayBuffer.idx b) < C)%nat) by lia.
  pose proof (store_ok C b tr _ Hs Hi' Hlt) as Hst.
  eexists. split; [exact Hst|].
  split; [eapply store_shaped; eauto|].
  split.
  { rewrite (entry_store C b _ tr _ _ Hs Hi' Hlt Hst), decide_True by done.
    rewrite as_stored_fits by done. reflexivity. }
  split.
  { intros j Hj. rewrite (entry_store C b _ tr _ j Hs Hi' Hlt Hst).
    rewrite decide_False by done. reflexivity. }
  split; simpl; [|reflexivity].
  rewrite Nat2Z.inj_mod. f_equal. lia.
Qed.

Lemma rows_entries {Frame : Type} (b : ReplayBuffer.t Frame) (idxs : list Z)
    (os : list Frame) (acts rews : list Z) (os' : list Frame) (ds : list bool) :
  Forall2 (fun i x => ReplayBuffer.obs_buf b !! Z.to_nat i = Some x) idxs os ->
  Forall2 (fun i x => ReplayBuffer.act_buf b !! Z.to_nat i = Some x) idxs acts ->
  Forall2 (fun i x => ReplayBuffer.rew_buf b !! Z.to_nat i = Some x) idxs rews ->
  Forall2 (fun i x => ReplayBuffer.next_obs_buf b !! Z.to_nat i = Some x) idxs os' ->
  Forall2 (fun i x => ReplayBuffer.done_buf b !! Z.to_nat i = Some x) idxs ds ->
  Forall2 (fun i tr => ReplayBuffer.entry b (Z.to_nat i) = Some tr) idxs
          (rows_of os acts rews os' ds).
Proof.
  intros H1. revert acts rews os' ds.
  induction H1 as [|i o idxs os Ho _ IH]; intros acts rews os' ds H2 H3 H4 H5;
    inversion H2; inversion H3; inversion H4; inversion H5; subst; simpl;
    constructor.
  - unfold ReplayBuffer.entry. simpl.
    repeat match goal with H : _ !! _ = Some _ |- _ => rewrite H; clear H end.
    reflexivity.
  - apply IH; assumption.
Qed.

Lemma entry_in_contents {Frame : Type} (b : ReplayBuffer.t Frame) (i : Z)
    (tr : Transition Frame) :
  0 <= i < ReplayBuffer.size b ->
  ReplayBuffer.entry b (Z.to_nat i) = Some tr ->
  tr ∈ ReplayBuffer.contents b.
Proof.
  intros Hi He. unfold ReplayBuffer.contents.
  apply list_elem_of_omap. exists (Z.to_nat i). split; [|done].
  apply elem_of_seq. lia.
Qed.

(** X3.  [sample] after [store]: once the transitions [ts], none of them
    out of the element types and at least one, went into a new buffer of
    capacity [C >= 1], a batch of any size [>= 0] is drawn without error,
    has that many rows, and every row is one of the last
    [min (length ts) C] transitions of [ts]: nothing overwritten and no
    slot never written is ever sampled. *)
Theorem sampled_rows_are_recent {Frame : Type} (zeros : Frame) (C : Z)
    (ts : list (Transition Frame)) (batch_size : Z) (g : RandomState) :
  1 <= C -> ts <> [] -> Forall (fun tr => fits_dtypes tr = true) ts ->
  0 <= batch_size ->
  exists b0 b batch g',
    ReplayBuffer.init zeros C = OK b0 /\
    ReplayBuffer.store_all b0 ts = OK b /\
    ReplayBuffer.sample b batch_size g = OK (batch, b, g') /\
    length (rows batch) = Z.to_nat batch_size /\
    Forall (fun tr => tr ∈ drop (length ts - Z.to_nat (Z.min (Z.of_nat (length ts)) C)) ts)
           (rows batch).
Proof.
  intros HC Hne Hfit Hn.
  destruct (ring_store_all zeros (Z.to_nat C) ts ltac:(lia))
    as (b0 & b & Hinit & Hall & Hr).
  rewrite Z2Nat.id in Hinit by lia.
  assert (Hlen : (0 < length ts)%nat) by (destruct ts; [done|simpl; lia]).
  assert (Hsz : ReplayBuffer.size b = Z.min (Z.of_nat (length ts)) C).
  { rewrite (ring_size _ _ _ Hr). lia. }
  assert (Hmap : as_stored <$> ts = ts).
  { clear -Hfit. induction Hfit as [|tr ts Htr _ IH]; [done|].
    rewrite fmap_cons, IH, as_stored_fits by done. done. }
  assert (Hcont : ReplayBuffer.contents b ≡ₚ
                  drop (length ts - Z.to_nat (Z.min (Z.of_nat (length ts)) C)) ts).
  { rewrite (contents_recent (Z.to_nat C) ts b Hr) by lia.
    rewrite fmap_drop, Hmap.
    replace (Z.to_nat (Z.min (Z.of_nat (length ts)) C))
      with (Nat.min (length ts) (Z.to_nat C)) by lia.
    reflexivity. }
  exists b0, b.
  destruct (Z.eq_dec batch_size 0) as [->|Hnz].
  - eexists _, _. split; [done|]. split; [done|]. split; [reflexivity|].
    split; [reflexivity|constructor].
  - destruct (randint_ok 0 (ReplayBuffer.size b) batch_size g ltac:(lia) ltac:(lia))
      as (idxs & Hrand & Hil & Hin).
    destruct (sample_ok (Z.to_nat C) b batch_size g idxs _ (ring_shaped _ _ _ Hr)
                ltac:(lia) Hrand Hin)
      as (batch & Hsample & F1 & F2 & F3 & F4 & F5).
    exists batch, (advance (Z.to_nat batch_size) g).
    split; [done|]. split; [done|]. split; [done|].
    pose proof (rows_entries b idxs _ _ _ _ _ F1 F2 F3 F4 F5) as Hrows.
    fold (rows batch) in Hrows.
    split; [rewrite <- (Forall2_length _ _ _ Hrows); done|].
    clear -Hrows Hin Hcont.
    induction Hrows as [|i tr idxs rs Hi _ IH]; [constructor|].
    inversion Hin; subst. constructor; [|apply IH; assumption].
    rewrite <- Hcont. eapply entry_in_contents; eauto.
Qed.

Lemma store_all_cursor_witness :
  1 <= 3 /\
  Forall (fun tr => fits_dtypes tr = true) (tagged (fun i => i) <$> [0; 1; 2; 3]) /\
  exists b0 b,
    ReplayBuffer.init 0 3 = OK b0 /\
    ReplayBuffer.store_all b0 (tagged (fun i => i) <$> [0; 1; 2; 3]) = OK b /\
    ReplayBuffer.idx b = 1.
Proof.
  assert (H : 1 <= 3) by lia.
  assert (Hfit : Forall (fun tr => fits_dtypes tr = true)
                   (tagged (fun i : Z => i) <$> [0; 1; 2; 3]))
    by (repeat constructor).
  split; [exact H|]. split; [exact Hfit|].
  destruct (store_all_cursor 0 3 (tagged (fun i => i) <$> [0; 1; 2; 3]) H Hfit)
    as (b0 & b & H1 & H2 & H3 & _).
  exists b0, b. split; [exact H1|]. split; [exact H2|]. exact H3.
Defined.

Lemma store_touches_one_slot_witness :
  shaped 3 demo_buffer /\ 0 <= ReplayBuffer.idx demo_buffer < Z.of_nat 3 /\
  fits_dtypes (tagged (fun i => i) 5) = true /\
  exists b',
    ReplayBuffer.store demo_buffer (tagged (fun i => i) 5) = OK b' /\
    ReplayBuffer.entry b' 2 = Some (tagged (fun i => i) 5) /\
    ReplayBuffer.entry b' 0 = ReplayBuffer.entry demo_buffer 0 /\
    ReplayBuffer.idx b' = 0 /\ ReplayBuffer.size b' = 3.
Proof.
  assert (H1 : 0 <= ReplayBuffer.idx demo_buffer < Z.of_nat 3) by (simpl; lia).
  assert (H2 : fits_dtypes (tagged (fun i : Z => i) 5) = true) by reflexivity.
  split; [exact demo_buffer_shaped|]. split; [exact H1|]. split; [exact H2|].
  destruct (store_touches_one_slot 3 demo_buffer (tagged (fun i => i) 5)
              demo_buffer_shaped H1 H2)
    as (b' & Hst & _ & He & Hother & Hidx & Hsize).
  exists b'. split; [exact Hst|]. split; [exact He|].
  split; [apply Hother; simpl; lia|]. split; [exact Hidx|exact Hsize].
Defined.

Lemma sampled_rows_are_recent_witness :
  1 <= 3 /\ tagged (fun i => i) <$> [0; 1; 2; 3] <> [] /\
  Forall (fun tr => fits_dtypes tr = true) (tagged (fun i => i) <$> [0; 1; 2; 3]) /\
  0 <= 2 /\
  exists b0 b batch g',
    ReplayBuffer.init 0 3 = OK b0 /\
    ReplayBuffer.store_all b0 (tagged (fun i => i) <$> [0; 1; 2; 3]) = OK b /\
    ReplayBuffer.sample b 2 constant_generator = OK (batch, b, g') /\
    length (rows batch) = 2%nat /\
    Forall (fun tr => tr ∈ tagged (fun i => i) <$> [1; 2; 3]) (rows batch).
Proof.
  assert (H1 : 1 <= 3) by lia.
  assert (H2 : tagged (fun i : Z => i) <$> [0; 1; 2; 3] <> []) by discriminate.
  assert (H3 : Forall (fun tr => fits_dtypes tr = true)
                 (tagged (fun i : Z => i) <$> [0; 1; 2; 3]))
    by (repeat constructor).
  assert (H4 : 0 <= 2) by lia.
  split; [exact H1|]. split; [exact H2|]. split; [exact H3|]. split; [exact H4|].
  destruct (sampled_rows_are_recent 0 3 _ 2 constant_generator H1 H2 H3 H4)
    as (b0 & b & batch & g' & Hi & Hs & Hsm & Hl & Hall).
  exists b0, b, batch, g'. split; [exact Hi|]. split; [exact Hs|].
  split; [exact Hsm|]. split; [exact Hl|exact Hall].
Defined.

(** ** Short schedules *)

Lemma norm_index_empty (i : Z) : norm_index 0 i = Raise IndexError.
Proof.
  unfold norm_index.
  destruct (i <? 0); destruct (Z.leb_spec 0 (i + 0)); destruct (Z.ltb_spec (i + 0) 0);
    destruct (Z.leb_spec 0 i); destruct (Z.ltb_spec i 0); simpl; try reflexivity; lia.
Qed.

Lemma next_epsilon_empty (s : EpsilonDecaySchedule.t) :
  EpsilonDecaySchedule.schedule s = [] ->
  EpsilonDecaySchedule.next_epsilon s = Raise IndexError.
Proof.
  intros Hs. unfold EpsilonDecaySchedule.next_epsilon, getitem.
  cbn [EpsilonDecaySchedule.schedule EpsilonDecaySchedule.step]. rewrite Hs.
  change (Z.of_nat (length [])) with 0. rewrite norm_index_empty. reflexivity.
Qed.

Lemma call_after_empty (k : nat) (s : EpsilonDecaySchedule.t) :
  EpsilonDecaySchedule.schedule s = [] ->
  EpsilonDecaySchedule.call_after k s = Raise IndexError.
Proof.
  intros Hs. unfold EpsilonDecaySchedule.call_after.
  destruct k as [|k]; simpl; rewrite (next_epsilon_empty s Hs); reflexivity.
Qed.

(** X4.  Schedules of fewer than two steps.  A negative [steps] is
    refused at construction ([ValueError] of [np.linspace]).  With
    [steps = 0] the object is built with an empty schedule and every call
    of [next_epsilon] raises [IndexError].  With [steps = 1] the schedule
    has one value and every call returns it. *)
Theorem schedule_degenerate_steps (start end_ : F64.t) :
  (forall steps, steps < 0 ->
     EpsilonDecaySchedule.init start end_ steps = Raise ValueError) /\
  (exists s0,
     EpsilonDecaySchedule.init start end_ 0 = OK s0 /\
     EpsilonDecaySchedule.schedule s0 = [] /\
     forall k, EpsilonDecaySchedule.call_after k s0 = Raise IndexError) /\
  (exists s0 x,
     EpsilonDecaySchedule.init start end_ 1 = OK s0 /\
     EpsilonDecaySchedule.schedule s0 = [x] /\
     forall k, EpsilonDecaySchedule.call_after k s0 = OK x).
Proof.
  split; [|split].
  - intros steps Hs. unfold EpsilonDecaySchedule.init, linspace.
    destruct (Z.ltb_spec steps 0); [reflexivity|lia].
  - eexists. split; [reflexivity|]. split; [reflexivity|].
    intros k. apply call_after_empty. reflexivity.
  - eexists _, _. split; [reflexivity|]. split; [reflexivity|].
    intros k. apply call_after_ok; simpl; [lia|].
    match goal with |- _ !! ?n = _ => replace n with 0%nat by (simpl; lia) end.
    reflexivity.
Qed.

Lemma schedule_degenerate_steps_witness :
  -1 < 0 /\ EpsilonDecaySchedule.init F64.one F64.tenth (-1) = Raise ValueError.
Proof.
  assert (H : -1 < 0) by lia. split; [exact H|].
  exact (proj1 (schedule_degenerate_steps F64.one F64.tenth) (-1) H).
Defined.

(** ** Exploration *)

Lemma digits2_size (p : positive) : digits2_pos p = Pos.size p.
Proof. induction p; simpl; congruence. Qed.

Lemma digits2_bound (p : positive) (n : Z) :
  0 <= n -> Z.pos p < 2 ^ n -> Z.pos (digits2_pos p) <= n.
Proof.
  intros Hn Hp. rewrite digits2_size.
  pose proof (Pos.size_le p) as Hle.
  assert (H2 : 2 ^ Z.pos (Pos.size p) <= 2 * Z.pos p).
  { change (2 * Z.pos p) with (Z.pos p~0).
    rewrite <- Pos2Z.inj_pow. apply Pos2Z.pos_le_pos. exact Hle. }
  destruct (Z.le_gt_cases (Z.pos (Pos.size p)) n) as [|Hgt]; [done|].
  assert (2 ^ (n + 1) <= 2 ^ Z.pos (Pos.size p)) by (apply Z.pow_le_mono_r; lia).
  rewrite Z.pow_add_r in H by lia. lia.
Qed.

Lemma digits2_iter_xO (p n : positive) :
  digits2_pos (Pos.iter xO p n) = (digits2_pos p + n)%positive.
Proof.
  induction n as [|n IH] using Pos.peano_ind.
  - simpl. lia.
  - rewrite Pos.iter_succ. simpl. rewrite IH. lia.
Qed.

(** A mantissa of full width is not rounded. *)
Lemma binary_round_aux_exact (s : bool) (m : positive) (e : Z) :
  Z.pos (digits2_pos m) = 53 -> -1074 <= e <= 971 ->
  binary_round_aux 53 1024 s (Z.pos m) e loc_Exact = S754_finite s m e.
Proof.
  intros Hd He.
  assert (Hshr : shr_fexp 53 1024 (Z.pos m) e loc_Exact
                 = ({| shr_m := Z.pos m; shr_r := false; shr_s := false |}, e)).
  { unfold shr_fexp, Zdigits2, fexp, emin. rewrite Hd.
    replace (Z.max (53 + e - 53) (3 - 1024 - 53) - e) with 0 by lia. reflexivity. }
  unfold binary_round_aux. rewrite Hshr. simpl. rewrite Hshr. simpl.
  destruct (Z.leb_spec e (1024 - 53)); [reflexivity|lia].
Qed.

(** [np.random.random()] is a zero or a positive number with an exponent
    below that of [1.0]. *)
Lemma random_shape (g : RandomState) :
  (random g).1 = S754_zero false \/
  exists m e, (random g).1 = S754_finite false m e /\ e <= -53.
Proof.
  unfold random. cbn [fst].
  pose proof (Z.mod_pos_bound (raw g (cursor g)) (2 ^ 53) ltac:(lia)) as Hb.
  destruct (raw g (cursor g) `mod` 2 ^ 53) as [|p|p] eqn:E; [left; reflexivity| |lia].
  right. unfold binary_normalize, binary_round, F64.prec, F64.emax.
  pose proof (digits2_bound p 53 ltac:(lia) ltac:(lia)) as Hd.
  set (d := digits2_pos p) in *.
  assert (Hfexp : fexp 53 1024 (Z.pos d + -53) = Z.pos d - 106).
  { unfold fexp, emin. lia. }
  rewrite Hfexp. unfold shl_align.
  replace (Z.pos d - 106 - -53) with (Z.pos d - 53) by lia.
  destruct (Z.pos d - 53) as [|q|q] eqn:Eq; [|lia|].
  - exists p, (-53). split; [|lia]. apply binary_round_aux_exact; [fold d; lia|lia].
  - exists (Pos.iter xO p q), (Z.pos d - 106). split; [|lia].
    apply binary_round_aux_exact; [|lia].
    rewrite digits2_iter_xO. fold d. lia.
Qed.

Lemma random_below (g : RandomState) (eps : F64.t) :
  F64.leb F64.one eps = true -> F64.ltb (random g).1 eps = true.
Proof.
  unfold F64.leb, F64.ltb, SFleb, SFltb, F64.one.
  destruct (random_shape g) as [->|(m & e & -> & He)];
    destruct eps as [s|s| |s me ee]; try destruct s;
    cbv beta iota delta [SFcompare]; intros H;
    try discriminate H; try reflexivity.
  repeat match goal with
         | H : context [Z.compare ?a ?b] |- _ => destruct (Z.compare_spec a b); subst
         | |- context [Z.compare ?a ?b] => destruct (Z.compare_spec a b); subst
         end; try discriminate H; try reflexivity; lia.
Qed.

(** X5.  With [epsilon >= 1.0] the agent always explores: whatever
    number the generator produces, [get_action] returns what
    [env.action_space.sample()] returns, draws one random number, and the
    approximator has no part in the result. *)
Theorem explores_when_epsilon_at_least_one {Frame Params Env : Type}
    (forward : Params -> Frame -> list F32.t)
    (action_space_sample : Env -> Z * Env)
    (self : DQNAgent.t (Frame := Frame) (Params := Params) (Env := Env))
    (obs : Frame) (g : RandomState) :
  F64.leb F64.one (DQNAgent.epsilon self) = true ->
  DQNAgent.get_action forward action_space_sample self obs g =
    OK ((action_space_sample (DQNAgent.env self)).1,
        DQNAgent.with_env (action_space_sample (DQNAgent.env self)).2 self,
        advance 1 g) /\
  (forall forward' : Params -> Frame -> list F32.t,
      DQNAgent.get_action forward' action_space_sample self obs g =
      DQNAgent.get_action forward action_space_sample self obs g).
Proof.
  intros Heps.
  assert (H : forall f : Params -> Frame -> list F32.t,
             DQNAgent.get_action f action_space_sample self obs g =
             OK ((action_space_sample (DQNAgent.env self)).1,
                 DQNAgent.with_env (action_space_sample (DQNAgent.env self)).2 self,
                 advance 1 g)).
  { intros f. unfold DQNAgent.get_action.
    pose proof (random_below g _ Heps) as Hr.
    destruct (random g) as [u g1] eqn:Hu.
    assert (g1 = advance 1 g) as -> by (unfold random in Hu; congruence).
    cbn [fst] in Hr. rewrite Hr.
    destruct (action_space_sample (DQNAgent.env self)) as [a e]. reflexivity. }
  split; [apply H|]. intros f. rewrite !H. reflexivity.
Qed.

Lemma explores_when_epsilon_at_least_one_witness :
  F64.leb F64.one (DQNAgent.epsilon (small_agent F64.one 4)) = true /\
  DQNAgent.get_action demo_forward demo_action_space_sample (small_agent F64.one 4) 7
    constant_generator
  = OK (0, small_agent F64.one 4, advance 1 constant_generator).
Proof.
  assert (H : F64.leb F64.one (DQNAgent.epsilon (small_agent F64.one 4)) = true)
    by reflexivity.
  split; [exact H|].
  exact (proj1 (explores_when_epsilon_at_least_one demo_forward
                  demo_action_space_sample (small_agent F64.one 4) 7
                  constant_generator H)).
Defined.

(** ** The reductions *)

(** [max] moves on to [x] exactly when [argmax] does. *)
Lemma above_max_switch (x best : F32.t) :
  above x best = negb (F32.is_nan best) && negb (F32.leb x best).
Proof.
  unfold above, F32.leb, SFleb, F32.ltb, SFltb, F32.is_nan.
  destruct x as [sx|sx| |sx mx ex], best as [sb|sb| |sb mb eb];
    simpl; try reflexivity;
    repeat match goal with s : bool |- _ => destruct s end;
    simpl in *; try reflexivity; cmp_cases.
Qed.

Lemma argmax_from_nan (best : F32.t) (ibest i : Z) (l : list F32.t) :
  F32.is_nan best = true -> ibest < i -> argmax_from best ibest i l = ibest.
Proof.
  intros Hn. revert i. induction l as [|x l IH]; intros i Hi; simpl; [reflexivity|].
  rewrite greater_or_nan_later by lia. rewrite above_max_switch, Hn. simpl.
  apply IH. lia.
Qed.

Lemma max_from_at_argmax_from (l pre : list F32.t) (best : F32.t) (ibest : Z) :
  0 <= ibest ->
  pre !! Z.to_nat ibest = Some best ->
  (pre ++ l) !! Z.to_nat (argmax_from best ibest (Z.of_nat (length pre)) l)
    = Some (max_from best l).
Proof.
  revert pre best ibest. induction l as [|x l IH]; intros pre best ibest Hib Hbest.
  - simpl. rewrite app_nil_r. exact Hbest.
  - pose proof (lookup_lt_Some _ _ _ Hbest) as Hlt.
    cbn [argmax_from max_from]. rewrite greater_or_nan_later by lia.
    rewrite above_max_switch.
    destruct (F32.is_nan best) eqn:Hn; simpl.
    + rewrite argmax_from_nan by (done || lia).
      rewrite lookup_app_l by lia. exact Hbest.
    + replace (pre ++ x :: l) with ((pre ++ [x]) ++ l)
        by (rewrite <- app_assoc; reflexivity).
      replace (Z.of_nat (length pre) + 1) with (Z.of_nat (length (pre ++ [x])))
        by (rewrite length_app; simpl; lia).
      destruct (F32.leb x best); simpl; apply IH; try lia.
      * rewrite lookup_app_l by lia. exact Hbest.
      * rewrite Nat2Z.id, lookup_app_r by lia. rewrite Nat.sub_diag. reflexivity.
Qed.

(** X6.  The two reductions agree: on a row that is not empty,
    [argmax] and [max] both succeed and the value at the index [argmax]
    returns is the value [max] returns, also among equal values and when
    the row has a NaN. *)
Theorem max_value_at_argmax (q : list F32.t) :
  q <> [] ->
  exists a y, argmax q = OK a /\ max_value q = OK y /\ q !! Z.to_nat a = Some y.
Proof.
  destruct q as [|x l]; [done|]. intros _.
  eexists _, _. split; [reflexivity|]. split; [reflexivity|].
  apply (max_from_at_argmax_from l [x] x 0); [lia|reflexivity].
Qed.

Lemma max_value_at_argmax_witness :
  demo_forward tt 7 <> [] /\
  exists a y,
    argmax (demo_forward tt 7) = OK a /\ max_value (demo_forward tt 7) = OK y /\
    demo_forward tt 7 !! Z.to_nat a = Some y.
Proof.
  assert (H : demo_forward tt 7 <> []) by discriminate.
  split; [exact H|]. exact (max_value_at_argmax (demo_forward tt 7) H).
Defined.

(** ** The learning step *)

Lemma mapM_OK {A B} (f : A -> result B) (l : list A) (ys : list B) :
  mapM f l = OK ys <-> Forall2 (fun x y => f x = OK y) l ys.
Proof.
  revert ys. induction l as [|x l IH]; intros ys; simpl.
  - split; [intros [= <-]; constructor|inversion 1; reflexivity].
  - split.
    + destruct (f x) as [y|e] eqn:Hx; simpl; [|discriminate].
      destruct (mapM f l) as [ys'|e]; simpl; [|discriminate].
      intros [= <-]. constructor; [done|]. apply IH. reflexivity.
    + inversion 1 as [|? y ? ys' Hx Hrest]; subst. rewrite Hx. simpl.
      apply IH in Hrest. rewrite Hrest. reflexivity.
Qed.

Lemma mapM_total {A B} (f : A -> result B) (l : list A) :
  Forall (fun x => exists y, f x = OK y) l -> exists ys, mapM f l = OK ys.
Proof.
  induction 1 as [|x l [y Hy] _ [ys Hys]]; simpl; [eauto|].
  rewrite Hy. simpl. rewrite Hys. simpl. eauto.
Qed.

Section Replay.
Context {Frame Params Env : Type}.
Variable forward : Params -> Frame -> list F32.t.
Variable optimise : Params -> list Frame -> list Z -> list F32.t -> Params.
Local Abbreviation agent_t :=
  (DQNAgent.t (Frame := Frame) (Params := Params) (Env := Env)).

Lemma with_memory_same (self : agent_t) :
  DQNAgent.with_memory (DQNAgent.memory self) self = self.
Proof. destruct self; reflexivity. Qed.

(** X7.  What a learning step touches.  When [replay] returns, the
    batch was sampled with the agent's [batch_size], the new parameters
    are what the optimiser makes of the batch and of the targets computed
    from [gamma], the rewards, the row maxima on the next observations and
    the [done] flags; the buffer, the environment, [epsilon], [gamma] and
    [batch_size] are as before. *)
Theorem replay_updates_parameters_only (self self' : agent_t) (g g' : RandomState) :
  DQNAgent.replay forward optimise self g = OK (self', g') ->
  exists batch max_next,
    ReplayBuffer.sample (DQNAgent.memory self) (DQNAgent.batch_size self) g
      = OK (batch, DQNAgent.memory self, g') /\
    Forall2 (fun o m => max_value (forward (DQNAgent.Q self) o) = OK m)
            (b_next_obs batch) max_next /\
    self' = DQNAgent.with_Q
              (optimise (DQNAgent.Q self) (b_obs batch) (b_act batch)
                 (td_targets (DQNAgent.gamma self) (b_rew batch) max_next (b_done batch)))
              self /\
    DQNAgent.memory self' = DQNAgent.memory self /\
    DQNAgent.env self' = DQNAgent.env self /\
    DQNAgent.epsilon self' = DQNAgent.epsilon self /\
    DQNAgent.gamma self' = DQNAgent.gamma self /\
    DQNAgent.batch_size self' = DQNAgent.batch_size self.
Proof.
  unfold DQNAgent.replay.
  destruct (ReplayBuffer.sample _ _ _) as [[[batch mem] g1]|e] eqn:Hs; simpl;
    [|discriminate].
  pose proof (sample_frame _ _ _ _ _ _ Hs) as ->.
  rewrite with_memory_same.
  destruct (mapM (fun oa => gather _ _) _) as [qs|e]; simpl; [|discriminate].
  destruct (mapM (fun o => max_value _) _) as [ms|e] eqn:Hm; simpl; [|discriminate].
  intros [= <- <-]. exists batch, ms.
  split; [done|]. split; [apply mapM_OK; exact Hm|].
  destruct self; simpl. auto 10.
Qed.

(** X8.  When a learning step cannot fail.  If the buffer's arrays are
    as allocated and hold at least one transition, the batch size is not
    negative, the approximator returns [n_actions >= 1] values for every
    observation and every recorded action is below [n_actions], then
    [replay] returns. *)
Theorem replay_total (C : nat) (n_actions : nat) (self : agent_t) (g : RandomState) :
  shaped C (DQNAgent.memory self) ->
  1 <= ReplayBuffer.size (DQNAgent.memory self) <= Z.of_nat C ->
  0 <= DQNAgent.batch_size self ->
  (1 <= n_actions)%nat ->
  (forall o, length (forward (DQNAgent.Q self) o) = n_actions) ->
  Forall (fun a => 0 <= a < Z.of_nat n_actions)
         (ReplayBuffer.act_buf (DQNAgent.memory self)) ->
  exists self' g', DQNAgent.replay forward optimise self g = OK (self', g').
Proof.
  intros Hs Hsz Hn Hna Hlen Hact.
  destruct (Z.eq_dec (DQNAgent.batch_size self) 0) as [Hz|Hnz].
  - unfold DQNAgent.replay, ReplayBuffer.sample, randint. rewrite Hz. simpl. eauto.
  - destruct (randint_ok 0 (ReplayBuffer.size (DQNAgent.memory self))
                (DQNAgent.batch_size self) g ltac:(lia) ltac:(lia))
      as (idxs & Hr & Hil & Hin).
    destruct (sample_ok C _ _ g idxs _ Hs ltac:(lia) Hr Hin)
      as (batch & Hsample & F1 & F2 & _).
    unfold DQNAgent.replay. rewrite Hsample. simpl. rewrite with_memory_same.
    assert (Hacts : Forall (fun a => 0 <= a < Z.of_nat n_actions) (b_act batch)).
    { rewrite Forall_forall in Hact. clear -F2 Hact.
      induction F2 as [|i a idxs acts Hi _ IH]; constructor; [|exact IH].
      apply Hact. eapply list_elem_of_lookup_2; eauto. }
    destruct (mapM_total (fun oa => gather (forward (DQNAgent.Q self) oa.1) oa.2)
                (zip (b_obs batch) (b_act batch))) as [qs Hqs].
    { apply Forall_forall. intros [o a] Hoa. simpl.
      assert (Ha : 0 <= a < Z.of_nat n_actions).
      { rewrite Forall_forall in Hacts. apply Hacts.
        apply elem_of_zip_r in Hoa. exact Hoa. }
      unfold gather. rewrite Hlen.
      destruct (Z.leb_spec 0 a); [|lia]. destruct (Z.ltb_spec a (Z.of_nat n_actions)); [|lia].
      simpl.
      destruct (lookup_lt_is_Some_2 (forward (DQNAgent.Q self) o) (Z.to_nat a)
                  ltac:(rewrite Hlen; lia)) as [y Hy].
      exists y. replace a with (Z.of_nat (Z.to_nat a)) by lia.
      apply getitem_in. exact Hy. }
    rewrite Hqs. simpl.
    destruct (mapM_total (fun o => max_value (forward (DQNAgent.Q self) o))
                (b_next_obs batch)) as [ms Hms].
    { apply Forall_forall. intros o _. specialize (Hlen o).
      destruct (forward (DQNAgent.Q self) o); [simpl in Hlen; lia|]. simpl. eauto. }
    rewrite Hms. simpl. eauto.
Qed.
End Replay.

Lemma replay_updates_parameters_only_witness :
  match DQNAgent.replay demo_forward4 demo_optimise (small_agent F64.one 4)
          constant_generator with
  | OK (self', g') =>
      DQNAgent.memory self' = demo_buffer /\ DQNAgent.epsilon self' = F64.one
  | Raise _ => False
  end.
Proof.
  destruct (DQNAgent.replay demo_forward4 demo_optimise (small_agent F64.one 4)
              constant_generator) as [[self' g']|e] eqn:Hr.
  - destruct (replay_updates_parameters_only demo_forward4 demo_optimise _ _ _ _ Hr)
      as (batch & ms & _ & _ & _ & Hm & _ & He & _).
    split; [exact Hm|exact He].
  - discriminate Hr.
Defined.

Lemma replay_total_witness :
  shaped 3 (DQNAgent.memory (small_agent F64.one 4)) /\
  Forall (fun a => 0 <= a < Z.of_nat 4)
         (ReplayBuffer.act_buf (DQNAgent.memory (small_agent F64.one 4))) /\
  exists self' g',
    DQNAgent.replay demo_forward4 demo_optimise (small_agent F64.one 4)
      constant_generator = OK (self', g').
Proof.
  assert (H1 : 1 <= ReplayBuffer.size (DQNAgent.memory (small_agent F64.one 4))
               <= Z.of_nat 3) by (simpl; lia).
  assert (H2 : 0 <= DQNAgent.batch_size (small_agent F64.one 4)) by (simpl; lia).
  assert (H3 : (1 <= 4)%nat) by lia.
  assert (H4 : forall o, length (demo_forward4 (DQNAgent.Q (small_agent F64.one 4)) o)
                         = 4%nat) by reflexivity.
  assert (H5 : Forall (fun a => 0 <= a < Z.of_nat 4)
                 (ReplayBuffer.act_buf (DQNAgent.memory (small_agent F64.one 4))))
    by (repeat constructor; simpl; lia).
  split; [exact demo_buffer_shaped|]. split; [exact H5|].
  exact (replay_total demo_forward4 demo_optimise 3 4 (small_agent F64.one 4)
           constant_generator demo_buffer_shaped H1 H2 H3 H4 H5).
Defined.

(** ** The training loop, continued *)

Lemma count_stores_app (t1 t2 : list event) :
  count_stores (t1 ++ t2) = count_stores t1 + count_stores t2.
Proof. induction t1 as [|[] t1 IH]; simpl; lia. Qed.

Lemma count_env_steps_app (t1 t2 : list event) :
  count_env_steps (t1 ++ t2) = count_env_steps t1 + count_env_steps t2.
Proof. induction t1 as [|[] t1 IH]; simpl; lia. Qed.

Lemma next_epsilon_step (s s' : EpsilonDecaySchedule.t) (eps : F64.t) :
  EpsilonDecaySchedule.next_epsilon s = OK (eps, s') ->
  EpsilonDecaySchedule.step s' = EpsilonDecaySchedule.step s + 1 /\
  EpsilonDecaySchedule.schedule s' = EpsilonDecaySchedule.schedule s.
Proof.
  unfold EpsilonDecaySchedule.next_epsilon.
  destruct (getitem _ _); simpl; [|discriminate]. intros [= _ <-]. simpl. auto.
Qed.

Section Learn.
Context {Frame Params Env : Type}.
Variable forward : Params -> Frame -> list F32.t.
Variable optimise : Params -> list Frame -> list Z -> list F32.t -> Params.
Variable env_reset : Env -> Frame * Env.
Variable env_step : Env -> Z -> (Frame * Z * bool * bool) * Env.
Variable action_space_sample : Env -> Z * Env.

Local Abbreviation agent_t :=
  (DQNAgent.t (Frame := Frame) (Params := Params) (Env := Env)).
Local Abbreviation state :=
  (DQNAgent.run_state (Frame := Frame) (Params := Params) (Env := Env)).
Local Abbreviation loop_body :=
  (DQNAgent.loop_body forward optimise env_step action_space_sample).
Local Abbreviation step :=
  (DQNAgent.step forward optimise env_reset env_step action_space_sample).
Local Abbreviation run :=
  (DQNAgent.run forward optimise env_reset env_step action_space_sample).
Local Abbreviation learn :=
  (DQNAgent.learn forward optimise env_reset env_step action_space_sample).

Lemma run_Return (fuel : nat) (episodes : Z) (st : state) :
  run fuel episodes DQNAgent.Return st = OK (DQNAgent.Return, st).
Proof. induction fuel as [|fuel IH]; simpl; [reflexivity|exact IH]. Qed.

(** What one pass of the loop leaves behind. *)
Lemma loop_body_effects (episode : Z) (obs : Frame) (r : Z) (st : state) c' (st' : state) :
  loop_body episode obs r st = OK (c', st') ->
  (exists eps,
     EpsilonDecaySchedule.next_epsilon (DQNAgent.epsilon_schedule st)
       = OK (eps, DQNAgent.epsilon_schedule st') /\
     DQNAgent.epsilon (DQNAgent.agent st') = eps) /\
  DQNAgent.episode_rewards st' = DQNAgent.episode_rewards st /\
  ((exists obs' r', c' = DQNAgent.While episode obs' r') \/
   (exists r', c' = DQNAgent.EndEpisode episode r')).
Proof.
  unfold DQNAgent.loop_body.
  destruct (DQNAgent.get_action _ _ _ _ _) as [[[action self1] g1]|e]; simpl; [|discriminate].
  destruct (env_step _ _) as [[[[next_obs reward] terminated] truncated] e1].
  destruct (ReplayBuffer.store _ _) as [mem|e]; simpl; [|discriminate].
  destruct (min_fill <=? ReplayBuffer.size mem).
  - destruct (DQNAgent.replay _ _ _ _) as [[self2 g2]|e]; simpl; [|discriminate].
    destruct (EpsilonDecaySchedule.next_epsilon _) as [[eps sched]|e]; simpl; [|discriminate].
    intros [= <- <-]. simpl. split; [eauto|]. split; [done|].
    destruct (terminated || truncated); eauto.
  - destruct (EpsilonDecaySchedule.next_epsilon _) as [[eps sched]|e]; simpl; [|discriminate].
    intros [= <- <-]. simpl. split; [eauto|]. split; [done|].
    destruct (terminated || truncated); eauto.
Qed.

Lemma loop_body_needs_schedule (episode : Z) (obs : Frame) (r : Z) (st : state) :
  EpsilonDecaySchedule.schedule (DQNAgent.epsilon_schedule st) = [] ->
  exists e, loop_body episode obs r st = Raise e.
Proof.
  intros Hs. destruct (loop_body episode obs r st) as [[c' st']|e] eqn:Hb; [|eauto].
  apply loop_body_effects in Hb as [(eps & Hn & _) _].
  rewrite next_epsilon_empty in Hn by done. discriminate.
Qed.

(** X9.  [learn] with no episode to run ([episodes < 1]): the
    environment is neither reset nor stepped, the agent and the generator
    are as before, no reward is recorded; the parameters are saved once, to
    the final path. *)
Theorem learn_without_episodes (fuel : nat) (self : agent_t) (episodes : Z)
    (g : RandomState) (sched : EpsilonDecaySchedule.t) :
  episodes < 1 ->
  EpsilonDecaySchedule.init (DQNAgent.epsilon self) (DQNAgent.epsilon_min self)
    (DQNAgent.epsilon_decay_steps self) = OK sched ->
  learn (S fuel) self episodes g =
    OK (DQNAgent.Return,
        {| DQNAgent.agent := self; DQNAgent.rng := g;
           DQNAgent.epsilon_schedule := sched;
           DQNAgent.episode_rewards := [];
           DQNAgent.trace := [Save false] |}).
Proof.
  intros Hep Hinit. unfold DQNAgent.learn. rewrite Hinit. simpl.
  destruct (Z.leb_spec 1 episodes); [lia|]. simpl. apply run_Return.
Qed.

(** X10.  [learn] needs a schedule.  With a negative
    [epsilon_decay_steps] it raises [ValueError] before anything else
    happens; with [epsilon_decay_steps = 0] and at least one episode it
    raises in the first pass through the loop, the schedule being
    empty. *)
Theorem learn_needs_decay_steps (fuel : nat) (self : agent_t) (episodes : Z)
    (g : RandomState) :
  (DQNAgent.epsilon_decay_steps self < 0 ->
   learn fuel self episodes g = Raise ValueError) /\
  (DQNAgent.epsilon_decay_steps self = 0 -> 1 <= episodes ->
   exists e, learn (S (S fuel)) self episodes g = Raise e).
Proof.
  split.
  - intros Hneg. unfold DQNAgent.learn, EpsilonDecaySchedule.init, linspace.
    destruct (Z.ltb_spec (DQNAgent.epsilon_decay_steps self) 0); [reflexivity|lia].
  - intros Hz Hep. unfold DQNAgent.learn. rewrite Hz.
    change (EpsilonDecaySchedule.init (DQNAgent.epsilon self) (DQNAgent.epsilon_min self) 0)
      with (OK {| EpsilonDecaySchedule.step := 0; EpsilonDecaySchedule.schedule := [] |}).
    change (exists e, run (S (S fuel)) episodes (DQNAgent.ForEpisode 1)
              {| DQNAgent.agent := self; DQNAgent.rng := g;
                 DQNAgent.epsilon_schedule :=
                   {| EpsilonDecaySchedule.step := 0;
                      EpsilonDecaySchedule.schedule := [] |};
                 DQNAgent.episode_rewards := []; DQNAgent.trace := [] |} = Raise e).
    change (run (S (S fuel)) episodes ?c ?st)
      with (rbind (step episodes c st) (fun x => let '(c', st') := x in
              rbind (step episodes c' st') (fun y => let '(c2, st2) := y in
                run fuel episodes c2 st2))).
    unfold DQNAgent.step at 1. cbn [DQNAgent.agent DQNAgent.rng DQNAgent.epsilon_schedule
      DQNAgent.episode_rewards DQNAgent.trace].
    destruct (Z.leb_spec 1 episodes); [|lia].
    destruct (env_reset (DQNAgent.env self)) as [obs e].
    cbn [rbind]. unfold DQNAgent.step.
    match goal with
    | |- context [DQNAgent.loop_body _ _ _ _ ?ep ?o ?r ?st] =>
        destruct (loop_body_needs_schedule ep o r st eq_refl) as [e' He']
    end.
    rewrite He'. simpl. eauto.
Qed.

(** The counts kept by every step of the machine. *)
Lemma run_counts (fuel : nat) (episodes : Z) c (st : state) c' (st' : state) :
  run fuel episodes c st = OK (c', st') ->
  count_stores (DQNAgent.trace st) = count_env_steps (DQNAgent.trace st) ->
  EpsilonDecaySchedule.step (DQNAgent.epsilon_schedule st)
    = count_stores (DQNAgent.trace st) ->
  count_stores (DQNAgent.trace st') = count_env_steps (DQNAgent.trace st') /\
  EpsilonDecaySchedule.step (DQNAgent.epsilon_schedule st')
    = count_stores (DQNAgent.trace st').
Proof.
  revert c st. induction fuel as [|fuel IH]; intros c st; simpl.
  - intros [= _ <-]. auto.
  - destruct (DQNAgent.step _ _ _ _ _ _ _ _) as [[c1 st1]|e] eqn:Hst; simpl; [|discriminate].
    intros Hrun H1 H2. apply (IH c1 st1 Hrun).
    + destruct c as [episode|episode obs r|episode r|]; simpl in Hst.
      * destruct (episode <=? episodes); [destruct (env_reset _)|];
          injection Hst as _ <-; simpl;
          rewrite count_stores_app, count_env_steps_app; simpl; lia.
      * destruct (loop_body_trace _ _ _ _ _ _ _ _ _ _ Hst) as [action Htr].
        simpl in Htr. rewrite Htr, count_stores_app, count_env_steps_app.
        destruct (min_fill <=? _); simpl; lia.
      * injection Hst as _ <-. simpl. destruct (_ =? 0); [|done].
        rewrite count_stores_app, count_env_steps_app; simpl; lia.
      * injection Hst as _ <-. done.
    + destruct c as [episode|episode obs r|episode r|]; simpl in Hst.
      * destruct (episode <=? episodes); [destruct (env_reset _)|];
          injection Hst as _ <-; simpl; rewrite count_stores_app; simpl; lia.
      * destruct (loop_body_trace _ _ _ _ _ _ _ _ _ _ Hst) as [action Htr].
        destruct (loop_body_effects _ _ _ _ _ _ Hst) as [(eps & Hn & _) _].
        apply next_epsilon_step in Hn as [Hn _].
        simpl in Htr. rewrite Htr, count_stores_app, Hn.
        destruct (min_fill <=? _); simpl; lia.
      * injection Hst as _ <-. simpl. destruct (_ =? 0); [|done].
        rewrite count_stores_app; simpl; lia.
      * injection Hst as _ <-. done.
Qed.

(** X11.  Wherever [learn] has got to: every step of the environment
    made so far was followed by one [store], and the counter of the epsilon
    schedule is the number of these steps. *)
Theorem learn_steps_store_and_decay (fuel : nat) (self : agent_t) (episodes : Z)
    (g : RandomState) c (st : state) :
  learn fuel self episodes g = OK (c, st) ->
  count_stores (DQNAgent.trace st) = count_env_steps (DQNAgent.trace st) /\
  EpsilonDecaySchedule.step (DQNAgent.epsilon_schedule st)
    = count_stores (DQNAgent.trace st).
Proof.
  unfold DQNAgent.learn, EpsilonDecaySchedule.init.
  destruct (linspace _ _ _) as [l|e]; simpl; [|discriminate].
  intros Hrun. apply (run_counts _ _ _ _ _ _ Hrun); reflexivity.
Qed.

Lemma step_episodes_done (episodes : Z) c (st : state) c' (st' : state) :
  step episodes c st = OK (c', st') ->
  episodes_done episodes c st -> episodes_done episodes c' st'.
Proof.
  destruct c as [episode|episode obs r|episode r|]; simpl.
  - destruct (Z.leb_spec episode episodes).
    + destruct (env_reset _) as [obs e]. intros [= <- <-]. simpl. lia.
    + intros [= <- <-]. simpl. intros [H1 H2]. split; [lia|].
      rewrite last_snoc. reflexivity.
  - intros Hb H. destruct (loop_body_effects _ _ _ _ _ _ Hb)
      as (_ & Hrew & [(o' & r' & ->)|(r' & ->)]); simpl; rewrite Hrew; exact H.
  - intros [= <- <-]. simpl. rewrite length_app. simpl. lia.
  - intros [= <- <-]. done.
Qed.

Lemma run_episodes_done (fuel : nat) (episodes : Z) c (st : state) c' (st' : state) :
  run fuel episodes c st = OK (c', st') ->
  episodes_done episodes c st -> episodes_done episodes c' st'.
Proof.
  revert c st. induction fuel as [|fuel IH]; intros c st; simpl.
  - intros [= <- <-]. done.
  - destruct (DQNAgent.step _ _ _ _ _ _ _ _) as [[c1 st1]|e] eqn:Hst; simpl; [|discriminate].
    intros Hrun H. eapply IH; [exact Hrun|]. eapply step_episodes_done; eauto.
Qed.

(** X12.  When [learn] returns, [episode_rewards] has one entry per
    episode, [max 0 episodes] of them, and the last thing done was to save
    the parameters to the final path. *)
Theorem learn_records_each_episode (fuel : nat) (self : agent_t) (episodes : Z)
    (g : RandomState) (st : state) :
  learn fuel self episodes g = OK (DQNAgent.Return, st) ->
  Z.of_nat (length (DQNAgent.episode_rewards st)) = Z.max 0 episodes /\
  last (DQNAgent.trace st) = Some (Save false).
Proof.
  unfold DQNAgent.learn.
  destruct (EpsilonDecaySchedule.init _ _ _) as [sched|e]; simpl; [|discriminate].
  intros Hrun. apply (run_episodes_done _ _ _ _ _ _ Hrun). simpl. lia.
Qed.
End Learn.

Lemma small_learn_ends :
  match small_learn with OK (DQNAgent.Return, _) => True | _ => False end.
Proof. vm_compute. exact I. Qed.

Lemma learn_without_episodes_witness :
  0 < 1 /\
  match EpsilonDecaySchedule.init F64.one F64.tenth 4 with
  | OK sched =>
      DQNAgent.learn demo_forward demo_optimise demo_env_reset demo_env_step
        demo_action_space_sample 1 (small_agent F64.one 4) 0 constant_generator
      = OK (DQNAgent.Return,
            {| DQNAgent.agent := small_agent F64.one 4;
               DQNAgent.rng := constant_generator;
               DQNAgent.epsilon_schedule := sched;
               DQNAgent.episode_rewards := [];
               DQNAgent.trace := [Save false] |})
  | Raise _ => False
  end.
Proof.
  assert (H : 0 < 1) by lia. split; [exact H|].
  destruct (EpsilonDecaySchedule.init F64.one F64.tenth 4) as [sched|e] eqn:Hinit.
  - exact (learn_without_episodes demo_forward demo_optimise demo_env_reset
             demo_env_step demo_action_space_sample 0 (small_agent F64.one 4) 0
             constant_generator sched H Hinit).
  - vm_compute in Hinit. discriminate Hinit.
Defined.

Lemma learn_needs_decay_steps_witness :
  -1 < 0 /\ 1 <= 1 /\
  DQNAgent.learn demo_forward demo_optimise demo_env_reset demo_env_step
    demo_action_space_sample 5 (small_agent F64.one (-1)) 1 constant_generator
  = Raise ValueError /\
  exists e,
    DQNAgent.learn demo_forward demo_optimise demo_env_reset demo_env_step
      demo_action_space_sample 5 (small_agent F64.one 0) 1 constant_generator
    = Raise e.
Proof.
  assert (H1 : -1 < 0) by lia. assert (H2 : 1 <= 1) by lia.
  split; [exact H1|]. split; [exact H2|]. split.
  - exact (proj1 (learn_needs_decay_steps demo_forward demo_optimise demo_env_reset
                    demo_env_step demo_action_space_sample 5
                    (small_agent F64.one (-1)) 1 constant_generator) H1).
  - exact (proj2 (learn_needs_decay_steps demo_forward demo_optimise demo_env_reset
                    demo_env_step demo_action_space_sample 3
                    (small_agent F64.one 0) 1 constant_generator) eq_refl H2).
Defined.

Lemma learn_steps_store_and_decay_witness :
  match small_learn with
  | OK (_, st) =>
      count_stores (DQNAgent.trace st) = count_env_steps (DQNAgent.trace st) /\
      EpsilonDecaySchedule.step (DQNAgent.epsilon_schedule st)
        = count_stores (DQNAgent.trace st)
  | Raise _ => False
  end.
Proof.
  pose proof small_learn_ends as He.
  destruct small_learn as [[c st]|e] eqn:Hrun.
  - exact (learn_steps_store_and_decay demo_forward demo_optimise demo_env_reset
             demo_env_step demo_action_space_sample _ _ _ _ c st Hrun).
  - exact He.
Defined.

Lemma learn_records_each_episode_witness :
  match small_learn with
  | OK (DQNAgent.Return, st) =>
      Z.of_nat (length (DQNAgent.episode_rewards st)) = Z.max 0 1 /\
      last (DQNAgent.trace st) = Some (Save false)
  | _ => False
  end.
Proof.
  pose proof small_learn_ends as He.
  destruct small_learn as [[[] st]|e] eqn:Hrun; try exact He.
  exact (learn_records_each_episode demo_forward demo_optimise demo_env_reset
           demo_env_step demo_action_space_sample _ _ _ _ st Hrun).
Defined.

(** ** The evaluation loop *)

Section Evaluation.
Context {Frame Params Env : Type}.
Variable forward : Params -> Frame -> list F32.t.
Variable env_reset : Env -> Frame * Env.
Variable env_step : Env -> Z -> (Frame * Z * bool * bool) * Env.
Variable action_space_sample : Env -> Z * Env.
Local Abbreviation agent_t :=
  (DQNAgent.t (Frame := Frame) (Params := Params) (Env := Env)).

Lemma get_action_same_learner (self self' : agent_t) (obs : Frame) (g g' : RandomState)
    (a : Z) :
  DQNAgent.get_action forward action_space_sample self obs g = OK (a, self', g') ->
  same_learner self' self.
Proof.
  unfold DQNAgent.get_action. destruct (random g) as [u g1].
  destruct (F64.ltb u (DQNAgent.epsilon self)).
  - destruct (action_space_sample _) as [a' e]. intros [= _ <- _].
    repeat split.
  - destruct (argmax _); simpl; [|discriminate]. intros [= _ <- _]. repeat split.
Qed.

Lemma test_step_same_learner (episodes : Z) c st c' st' (a0 : agent_t) :
  Main.step forward env_reset env_step action_space_sample episodes c st = OK (c', st') ->
  same_learner (Main.agent st) a0 -> same_learner (Main.agent st') a0.
Proof.
  destruct c as [episode|episode obs r|episode r|]; simpl.
  - destruct (episode <=? episodes); [destruct (env_reset _)|]; intros [= _ <-]; done.
  - unfold Main.loop_body.
    destruct (DQNAgent.get_action _ _ _ _ _) as [[[action self1] g1]|e] eqn:Hg; simpl;
      [|discriminate].
    apply get_action_same_learner in Hg.
    destruct (env_step _ _) as [[[[o reward] terminated] truncated] e1].
    intros [= _ <-] H. simpl.
    destruct Hg as (H1 & H2 & H3 & H4 & H5), H as (K1 & K2 & K3 & K4 & K5).
    repeat split; simpl; congruence.
  - intros [= _ <-]. done.
  - intros [= _ <-]. done.
Qed.

Lemma test_step_episodes_done (episodes : Z) c st c' st' :
  Main.step forward env_reset env_step action_space_sample episodes c st = OK (c', st') ->
  test_episodes_done episodes c st -> test_episodes_done episodes c' st'.
Proof.
  destruct c as [episode|episode obs r|episode r|]; simpl.
  - destruct (Z.leb_spec episode episodes).
    + destruct (env_reset _) as [obs e]. intros [= <- <-]. simpl. lia.
    + intros [= <- <-]. simpl. lia.
  - unfold Main.loop_body.
    destruct (DQNAgent.get_action _ _ _ _ _) as [[[action self1] g1]|e]; simpl;
      [|discriminate].
    destruct (env_step _ _) as [[[[o reward] terminated] truncated] e1].
    intros [= <- <-]. destruct (terminated || truncated); simpl; done.
  - intros [= <- <-]. simpl. rewrite length_app. simpl. lia.
  - intros [= <- <-]. done.
Qed.

Lemma test_run_invariant (fuel : nat) (episodes : Z) c0 st0 c st (a0 : agent_t) :
  Main.run forward env_reset env_step action_space_sample fuel episodes c0 st0
    = OK (c, st) ->
  same_learner (Main.agent st0) a0 -> test_episodes_done episodes c0 st0 ->
  same_learner (Main.agent st) a0 /\ test_episodes_done episodes c st.
Proof.
  revert c0 st0. induction fuel as [|fuel IH]; intros c0 st0; simpl.
  - intros [= <- <-]. done.
  - destruct (Main.step _ _ _ _ _ _ _) as [[c1 st1]|e] eqn:Hs; simpl; [|discriminate].
    intros Hrun H1 H2. apply (IH _ _ Hrun).
    + exact (test_step_same_learner _ _ _ _ _ _ Hs H1).
    + exact (test_step_episodes_done _ _ _ _ _ Hs H2).
Qed.

(** X13.  Evaluation leaves the learner alone.  Wherever [test] has got
    to, the agent's parameters and its buffer are those it was called with
    and [epsilon] is [0.05]; when it returns, one reward per episode has
    been recorded. *)
Theorem test_leaves_learner_alone (fuel : nat) (self : agent_t) (episodes : Z)
    (g : RandomState) c st :
  Main.test forward env_reset env_step action_space_sample fuel self episodes g
    = OK (c, st) ->
  DQNAgent.Q (Main.agent st) = DQNAgent.Q self /\
  DQNAgent.memory (Main.agent st) = DQNAgent.memory self /\
  DQNAgent.epsilon (Main.agent st) = f64_005 /\
  (c = Main.Return ->
   Z.of_nat (length (Main.episode_rewards st)) = Z.max 0 episodes).
Proof.
  unfold Main.test. intros Hrun.
  apply test_run_invariant with (a0 := DQNAgent.with_epsilon f64_005 self) in Hrun.
  - destruct Hrun as [(H1 & H2 & H3 & _) Hd].
    repeat split; try assumption.
    intros ->. exact Hd.
  - repeat split.
  - simpl. lia.
Qed.
End Evaluation.

Lemma small_test_ends :
  match small_test with OK (Main.Return, _) => True | _ => False end.
Proof. vm_compute. exact I. Qed.

Lemma test_leaves_learner_alone_witness :
  match small_test with
  | OK (c, st) =>
      DQNAgent.Q (Main.agent st) = tt /\
      DQNAgent.memory (Main.agent st) = demo_buffer /\
      DQNAgent.epsilon (Main.agent st) = f64_005
  | Raise _ => False
  end.
Proof.
  pose proof small_test_ends as He.
  destruct small_test as [[c st]|e] eqn:Hrun.
  - destruct (test_leaves_learner_alone demo_forward demo_env_reset demo_env_step
                demo_action_space_sample _ _ _ _ c st Hrun) as (H1 & H2 & H3 & _).
    split; [exact H1|]. split; [exact H2|exact H3].
  - exact He.
Defined.

(** ** A new agent *)

Section Fresh.
Context {Frame Params Env : Type}.
Variable zeros : Frame.
Variable forward : Params -> Frame -> list F32.t.
Variable optimise : Params -> list Frame -> list Z -> list F32.t -> Params.

(** X14.  A new agent has nothing to learn from.  Built with a capacity
    [>= 0], its buffer is empty, with cursor 0 and arrays of the capacity
    asked for, and [replay] with a batch size other than 0 raises
    [ValueError]: the draw from the empty range fails. *)
Theorem fresh_agent_cannot_replay (e : Env) (q : Params) (epsilon epsilon_min : F64.t)
    (epsilon_decay_steps memory_size : Z) (gamma : F64.t) (batch_size : Z) :
  0 <= memory_size -> batch_size <> 0 ->
  exists self,
    DQNAgent.init zeros e q epsilon epsilon_min epsilon_decay_steps memory_size
      gamma batch_size = OK self /\
    ReplayBuffer.size (DQNAgent.memory self) = 0 /\
    ReplayBuffer.idx (DQNAgent.memory self) = 0 /\
    shaped (Z.to_nat memory_size) (DQNAgent.memory self) /\
    forall g, DQNAgent.replay forward optimise self g = Raise ValueError.
Proof.
  intros Hm Hb. unfold DQNAgent.init, ReplayBuffer.init.
  destruct (Z.ltb_spec memory_size 0); [lia|]. simpl.
  eexists. split; [reflexivity|]. simpl. split; [reflexivity|]. split; [reflexivity|].
  split.
  - split; simpl; rewrite ?length_replicate; lia.
  - intros g. unfold DQNAgent.replay, ReplayBuffer.sample, randint. simpl.
    destruct (Z.ltb_spec batch_size 0); [reflexivity|].
    destruct (Z.eqb_spec batch_size 0); [lia|]. reflexivity.
Qed.
End Fresh.

Lemma fresh_agent_cannot_replay_witness :
  0 <= 3 /\ 2 <> 0 /\
  exists self,
    DQNAgent.init 0 0 tt F64.one F64.tenth 4 3 f64_099 2 = OK self /\
    DQNAgent.replay demo_forward demo_optimise self constant_generator
      = Raise ValueError.
Proof.
  assert (H1 : 0 <= 3) by lia. assert (H2 : 2 <> 0) by lia.
  split; [exact H1|]. split; [exact H2|].
  destruct (fresh_agent_cannot_replay 0 demo_forward demo_optimise 0 tt F64.one
              F64.tenth 4 3 f64_099 2 H1 H2) as (self & Hi & _ & _ & _ & Hr).
  exists self. split; [exact Hi|apply Hr].
Defined.

(** ** Batches and the value of epsilon *)

Lemma mapM_length {A B} (f : A -> result B) (l : list A) (ys : list B) :
  mapM f l = OK ys -> length ys = length l.
Proof.
  intros H. apply mapM_OK in H. symmetry. exact (Forall2_length _ _ _ H).
Qed.

Lemma randint_length (low high n : Z) (g : RandomState) idxs g' :
  randint low high n g = OK (idxs, g') -> length idxs = Z.to_nat n.
Proof.
  unfold randint. destruct (Z.ltb_spec n 0); [discriminate|].
  destruct (Z.eqb_spec n 0) as [->|].
  - intros [= <- _]. reflexivity.
  - destruct (high <=? low); [discriminate|]. intros [= <- _].
    rewrite length_map, length_seq. reflexivity.
Qed.

Lemma sample_lengths {Frame} (b : ReplayBuffer.t Frame) (n : Z) g batch b' g' :
  ReplayBuffer.sample b n g = OK (batch, b', g') ->
  length (b_obs batch) = Z.to_nat n /\ length (b_act batch) = Z.to_nat n /\
  length (b_rew batch) = Z.to_nat n /\ length (b_next_obs batch) = Z.to_nat n /\
  length (b_done batch) = Z.to_nat n.
Proof.
  unfold ReplayBuffer.sample.
  destruct (randint _ _ _ _) as [[idxs g1]|e] eqn:Hr; simpl; [|discriminate].
  apply randint_length in Hr. unfold getitems.
  destruct (mapM (getitem (ReplayBuffer.obs_buf b)) idxs) eqn:H1; simpl; [|discriminate].
  destruct (mapM (getitem (ReplayBuffer.act_buf b)) idxs) eqn:H2; simpl; [|discriminate].
  destruct (mapM (getitem (ReplayBuffer.rew_buf b)) idxs) eqn:H3; simpl; [|discriminate].
  destruct (mapM (getitem (ReplayBuffer.next_obs_buf b)) idxs) eqn:H4; simpl; [|discriminate].
  destruct (mapM (getitem (ReplayBuffer.done_buf b)) idxs) eqn:H5; simpl; [|discriminate].
  intros [= <- _ _]. simpl.
  apply mapM_length in H1, H2, H3, H4, H5. repeat split; congruence.
Qed.

Lemma td_targets_length (gamma : F64.t) (rs : list Z) (ms : list F32.t) (ds : list bool) :
  length ms = length rs -> length ds = length rs ->
  length (td_targets gamma rs ms ds) = length rs.
Proof.
  revert ms ds. induction rs as [|r rs IH]; intros [|m ms] [|d ds]; simpl;
    try discriminate; try reflexivity.
  intros [= H1] [= H2]. f_equal. apply IH; assumption.
Qed.

Section ReplayShapes.
Context {Frame Params Env : Type}.
Variable forward : Params -> Frame -> list F32.t.
Variable optimise : Params -> list Frame -> list Z -> list F32.t -> Params.
Local Abbreviation agent_t :=
  (DQNAgent.t (Frame := Frame) (Params := Params) (Env := Env)).

(** X15.  The optimiser sees whole batches.  When [replay] returns, the
    new parameters are the optimiser's result on as many observations,
    actions and targets as [batch_size] says. *)
Theorem replay_batch_lengths (self self' : agent_t) (g g' : RandomState) :
  DQNAgent.replay forward optimise self g = OK (self', g') ->
  exists os acts targets,
    DQNAgent.Q self' = optimise (DQNAgent.Q self) os acts targets /\
    length os = Z.to_nat (DQNAgent.batch_size self) /\
    length acts = Z.to_nat (DQNAgent.batch_size self) /\
    length targets = Z.to_nat (DQNAgent.batch_size self).
Proof.
  unfold DQNAgent.replay.
  destruct (ReplayBuffer.sample _ _ _) as [[[batch mem] g1]|e] eqn:Hs; simpl;
    [|discriminate].
  destruct (sample_lengths _ _ _ _ _ _ Hs) as (L1 & L2 & L3 & L4 & L5).
  destruct (mapM (fun oa => gather _ _) _) as [qs|e]; simpl; [|discriminate].
  destruct (mapM (fun o => max_value _) _) as [ms|e] eqn:Hm; simpl; [|discriminate].
  apply mapM_length in Hm.
  intros [= <- _]. eexists _, _, _. split; [reflexivity|].
  split; [exact L1|]. split; [exact L2|].
  rewrite td_targets_length; congruence.
Qed.
End ReplayShapes.

Lemma next_epsilon_value (s s' : EpsilonDecaySchedule.t) (eps : F64.t) :
  0 <= EpsilonDecaySchedule.step s ->
  EpsilonDecaySchedule.next_epsilon s = OK (eps, s') ->
  EpsilonDecaySchedule.schedule s' !!
    Z.to_nat (Z.min (EpsilonDecaySchedule.step s')
                    (Z.of_nat (length (EpsilonDecaySchedule.schedule s')) - 1))
  = Some eps.
Proof.
  intros H0. unfold EpsilonDecaySchedule.next_epsilon, getitem, norm_index.
  cbn [EpsilonDecaySchedule.step EpsilonDecaySchedule.schedule].
  set (len := Z.of_nat (length (EpsilonDecaySchedule.schedule s))).
  set (i := Z.min (EpsilonDecaySchedule.step s + 1) (len - 1)).
  destruct (Z.ltb_spec i 0).
  - assert (len = 0) by lia.
    destruct (Z.leb_spec 0 (i + len)); destruct (Z.ltb_spec (i + len) len);
      simpl; try discriminate; lia.
  - destruct (Z.leb_spec 0 i); [|lia]. destruct (Z.ltb_spec i len); simpl; [|discriminate].
    destruct (_ !! Z.to_nat i) as [x|] eqn:Hx; simpl; [|discriminate].
    intros [= <- <-]. cbn [EpsilonDecaySchedule.step EpsilonDecaySchedule.schedule].
    exact Hx.
Qed.

Section LearnEpsilon.
Context {Frame Params Env : Type}.
Variable forward : Params -> Frame -> list F32.t.
Variable optimise : Params -> list Frame -> list Z -> list F32.t -> Params.
Variable env_reset : Env -> Frame * Env.
Variable env_step : Env -> Z -> (Frame * Z * bool * bool) * Env.
Variable action_space_sample : Env -> Z * Env.

Local Abbreviation agent_t :=
  (DQNAgent.t (Frame := Frame) (Params := Params) (Env := Env)).
Local Abbreviation state :=
  (DQNAgent.run_state (Frame := Frame) (Params := Params) (Env := Env)).
Local Abbreviation step :=
  (DQNAgent.step forward optimise env_reset env_step action_space_sample).
Local Abbreviation run :=
  (DQNAgent.run forward optimise env_reset env_step action_space_sample).
Local Abbreviation learn :=
  (DQNAgent.learn forward optimise env_reset env_step action_space_sample).

Lemma step_epsilon_in_force (eps0 : F64.t) (sched0 : list F64.t) (episodes : Z)
    c (st : state) c' (st' : state) :
  step episodes c st = OK (c', st') ->
  epsilon_in_force eps0 sched0 st -> epsilon_in_force eps0 sched0 st'.
Proof.
  destruct c as [episode|episode obs r|episode r|]; simpl.
  - destruct (episode <=? episodes); [destruct (env_reset _)|]; intros [= _ <-]; done.
  - intros Hb (Hs & H0 & _ & _).
    destruct (loop_body_effects _ _ _ _ _ _ _ _ _ _ Hb) as [(eps & Hn & He) _].
    destruct (next_epsilon_step _ _ _ Hn) as [Hstep Hsched].
    pose proof (next_epsilon_value _ _ _ H0 Hn) as Hv.
    unfold epsilon_in_force. cbv zeta. rewrite Hsched, Hs in *.
    split; [done|]. split; [lia|]. split; [lia|]. intros _. rewrite He. exact Hv.
  - intros [= _ <-]. done.
  - intros [= _ <-]. done.
Qed.

Lemma run_epsilon_in_force (eps0 : F64.t) (sched0 : list F64.t) (fuel : nat)
    (episodes : Z) c (st : state) c' (st' : state) :
  run fuel episodes c st = OK (c', st') ->
  epsilon_in_force eps0 sched0 st -> epsilon_in_force eps0 sched0 st'.
Proof.
  revert c st. induction fuel as [|fuel IH]; intros c st; simpl.
  - intros [= _ <-]. done.
  - destruct (DQNAgent.step _ _ _ _ _ _ _ _) as [[c1 st1]|e] eqn:Hst; simpl; [|discriminate].
    intros Hrun H. eapply IH; [exact Hrun|]. eapply step_epsilon_in_force; eauto.
Qed.

(** X16.  The value of [epsilon] in force.  Wherever [learn] has got
    to, after [n] steps of the environment: for [n = 0] the agent's
    [epsilon] is the one it had at the call; for [n >= 1] it is the entry
    [min n (steps - 1)] of [np.linspace(epsilon, epsilon_min,
    epsilon_decay_steps)], [steps] being the length of that array. *)
Theorem learn_epsilon_follows_schedule (fuel : nat) (self : agent_t) (episodes : Z)
    (g : RandomState) c (st : state) :
  learn fuel self episodes g = OK (c, st) ->
  exists sched0,
    linspace (DQNAgent.epsilon self) (DQNAgent.epsilon_min self)
      (DQNAgent.epsilon_decay_steps self) = OK sched0 /\
    let n := count_env_steps (DQNAgent.trace st) in
    (n = 0 -> DQNAgent.epsilon (DQNAgent.agent st) = DQNAgent.epsilon self) /\
    (1 <= n ->
     sched0 !! Z.to_nat (Z.min n (Z.of_nat (length sched0) - 1))
       = Some (DQNAgent.epsilon (DQNAgent.agent st))).
Proof.
  unfold DQNAgent.learn, EpsilonDecaySchedule.init.
  destruct (linspace _ _ _) as [l|e]; simpl; [|discriminate].
  intros Hrun. exists l. split; [reflexivity|].
  destruct (run_counts _ _ _ _ _ _ _ _ _ _ _ Hrun eq_refl eq_refl) as [H1 H2].
  destruct (run_epsilon_in_force (DQNAgent.epsilon self) l _ _ _ _ _ _ Hrun)
    as (_ & _ & Ha & Hb).
  { repeat split; simpl; done. }
  cbv zeta. rewrite <- H1, <- H2. split; assumption.
Qed.
End LearnEpsilon.

Lemma replay_batch_lengths_witness :
  match DQNAgent.replay demo_forward4 demo_optimise (small_agent F64.one 4)
          constant_generator with
  | OK (self', g') =>
      exists os acts targets,
        DQNAgent.Q self' = demo_optimise tt os acts targets /\
        length os = 2%nat /\ length acts = 2%nat /\ length targets = 2%nat
  | Raise _ => False
  end.
Proof.
  destruct (DQNAgent.replay demo_forward4 demo_optimise (small_agent F64.one 4)
              constant_generator) as [[self' g']|e] eqn:Hr.
  - exact (replay_batch_lengths demo_forward4 demo_optimise _ _ _ _ Hr).
  - discriminate Hr.
Defined.

Lemma learn_epsilon_follows_schedule_witness :
  match small_learn with
  | OK (_, st) =>
      exists sched0,
        linspace F64.one F64.tenth 4 = OK sched0 /\
        (1 <= count_env_steps (DQNAgent.trace st) ->
         sched0 !! Z.to_nat (Z.min (count_env_steps (DQNAgent.trace st))
                                   (Z.of_nat (length sched0) - 1))
           = Some (DQNAgent.epsilon (DQNAgent.agent st)))
  | Raise _ => False
  end.
Proof.
  pose proof small_learn_ends as He.
  destruct small_learn as [[c st]|e] eqn:Hrun.
  - destruct (learn_epsilon_follows_schedule demo_forward demo_optimise demo_env_reset
                demo_env_step demo_action_space_sample _ _ _ _ c st Hrun)
      as (sched0 & Hl & _ & Hs).
    exists sched0. split; [exact Hl|exact Hs].
  - exact He.
Defined.
